(** * spine-to-godot-scene: the resource/node model and its serializer

    A shallow embedding of [spine-to-godot-scene.py].  Python [str] values
    are modelled by [string]; one [ascii] stands for one code point, so the
    model covers text over code points below 256, compared by code point as
    Python compares [str].  Objects that the script mutates through several
    references (the sub-resources, the animation player) live in a list and
    are referred to by their position in it. *)

From Stdlib Require Import List String Ascii Arith Bool Lia Permutation Sorted.
From Stdlib Require Import NArith DecimalString.
Import ListNotations.
Open Scope string_scope.

(* ================================================================== *)
(** ** Python string operations used by the script *)

Module PyStr.

Definition nl_char : ascii := "010"%char.
Definition nl : string := String nl_char EmptyString.
(** The double quote character, as a one-character string. *)
Definition dq : string := String "034"%char EmptyString.
Definition quoted (s : string) : string := dq ++ s ++ dq.

(** [str(n)] for a non-negative [int]. *)
Definition str_of_nat (n : nat) : string :=
  NilEmpty.string_of_uint (Nat.to_uint n).

(** [str(x)] where [x] is an [int] or [None]. *)
Definition str_of_opt (o : option nat) : string :=
  match o with
  | Some n => str_of_nat n
  | None => "None"
  end.

(** [c.isspace()] for a code point below 256. *)
Definition isspace (c : ascii) : bool :=
  let n := nat_of_ascii c in
  (((9 <=? n) && (n <=? 13)) || ((28 <=? n) && (n <=? 32))
   || (n =? 133) || (n =? 160))%nat.

Fixpoint lstrip (s : string) : string :=
  match s with
  | EmptyString => EmptyString
  | String c s' => if isspace c then lstrip s' else s
  end.

Fixpoint rstrip (s : string) : string :=
  match s with
  | EmptyString => EmptyString
  | String c s' =>
      match rstrip s' with
      | EmptyString => if isspace c then EmptyString else String c EmptyString
      | r => String c r
      end
  end.

(** [s.strip()] *)
Definition strip (s : string) : string := lstrip (rstrip s).

(** [s.split('\n')] *)
Fixpoint split_lines (s : string) : list string :=
  match s with
  | EmptyString => [EmptyString]
  | String c s' =>
      if Ascii.eqb c nl_char then EmptyString :: split_lines s'
      else match split_lines s' with
           | l :: ls => String c l :: ls
           | [] => [String c EmptyString]
           end
  end.

(** ['\n'.join(ls)] *)
Definition join_lines (ls : list string) : string := String.concat nl ls.

(** The two characters [textwrap.dedent] treats as indentation. *)
Definition is_indent (c : ascii) : bool :=
  Ascii.eqb c " "%char || Ascii.eqb c "009"%char.

Fixpoint all_indent (s : string) : bool :=
  match s with
  | EmptyString => true
  | String c s' => is_indent c && all_indent s'
  end.

Fixpoint leading_indent (s : string) : string :=
  match s with
  | EmptyString => EmptyString
  | String c s' => if is_indent c then String c (leading_indent s') else EmptyString
  end.

Fixpoint common_prefix (a b : string) : string :=
  match a, b with
  | String x a', String y b' =>
      if Ascii.eqb x y then String x (common_prefix a' b') else EmptyString
  | _, _ => EmptyString
  end.

(** The margin loop of [textwrap.dedent]: [None] while no indented line was
    seen, then the longest prefix shared by all indents seen so far. *)
Definition margin_of (indents : list string) : option string :=
  fold_left (fun m ind => match m with
                          | None => Some ind
                          | Some p => Some (common_prefix p ind)
                          end) indents None.

Fixpoint drop (n : nat) (s : string) : string :=
  match n, s with
  | S k, String _ s' => drop k s'
  | _, _ => s
  end.

(** [re.sub('^' + p, '', s)] on one line: [p] is removed when [s] starts
    with it. *)
Definition drop_prefix (p s : string) : string :=
  if String.prefix p s then drop (String.length p) s else s.

(** [textwrap.dedent(text)] (the regular-expression implementation of
    CPython 3.0 to 3.13): lines made only of blanks and tabs become empty,
    the margin is the longest indent common to the remaining non-empty
    lines, and the margin is removed from every line that starts with it. *)
Definition dedent (text : string) : string :=
  let lines := map (fun l => if all_indent l then EmptyString else l)
                   (split_lines text) in
  let indents := map leading_indent
                     (filter (fun l => negb (all_indent l)) lines) in
  match margin_of indents with
  | Some (String c m) => join_lines (map (drop_prefix (String c m)) lines)
  | _ => join_lines lines
  end.

(** [n] blanks, the indentation of a template in the source. *)
Definition sp (n : nat) : string := string_of_list_ascii (repeat " "%char n).

(** One indented line of a template, with its newline. *)
Definition line (n : nat) (s : string) : string := sp n ++ s ++ nl.

(** [s.replace(old, new)] for a non-empty [old]: occurrences are found left
    to right and do not overlap.  [skip] counts the characters of the
    occurrence being replaced that are still to be passed over. *)
Fixpoint replace_from (old new : string) (skip : nat) (s : string) : string :=
  match s with
  | EmptyString => EmptyString
  | String c s' =>
      match skip with
      | S k => replace_from old new k s'
      | O =>
          if String.prefix old s
          then new ++ replace_from old new (String.length old - 1) s'
          else String c (replace_from old new 0 s')
      end
  end.

Definition replace (old new s : string) : string := replace_from old new 0 s.

Fixpoint has_slash (p : string) : bool :=
  match p with
  | EmptyString => false
  | String c p' => Ascii.eqb c "/"%char || has_slash p'
  end.

(** [os.path.basename(p)] of [posixpath]: what follows the last slash. *)
Fixpoint basename (p : string) : string :=
  match p with
  | EmptyString => EmptyString
  | String c p' => if has_slash p then basename p' else p
  end.

End PyStr.
Import PyStr.

(* ================================================================== *)
(** ** Lists as Python uses them *)

(** [enumerate(l)] *)
Definition enumerate {A : Type} (l : list A) : list (nat * A) :=
  combine (seq 0 (List.length l)) l.

(** In-place update of the object stored at position [n]. *)
Fixpoint update_nth {A : Type} (n : nat) (f : A -> A) (l : list A) : list A :=
  match l, n with
  | [], _ => []
  | x :: l', O => f x :: l'
  | x :: l', S k => x :: update_nth k f l'
  end.

Fixpoint insert_by {A : Type} (key : A -> string) (x : A) (l : list A) : list A :=
  match l with
  | [] => [x]
  | y :: l' => if String.leb (key x) (key y) then x :: l else y :: insert_by key x l'
  end.

(** [sorted(l, key=key)]: Python's sort is stable, and a stable sort has one
    possible result; this is the insertion sort that produces it (an element
    is put in front of the first later element whose key is not smaller). *)
Definition sorted {A : Type} (key : A -> string) (l : list A) : list A :=
  fold_right (insert_by key) [] l.

(** The order [sorted] puts the elements in. *)
Definition key_le {A : Type} (key : A -> string) (x y : A) : Prop :=
  String.leb (key x) (key y) = true.

(** Ascending keys, and ascending positions among equal keys. *)
Definition stable_le {A : Type} (key : A -> string) (x y : nat * A) : Prop :=
  String.leb (key (snd x)) (key (snd y)) = true
  /\ (key (snd x) = key (snd y) -> fst x < fst y).

(* ================================================================== *)
(** ** Exceptions *)

Inductive exn : Type :=
| OSError
| JSONDecodeError
| KeyError (key : string)
| AssertionError
| AttributeError.

Inductive result (A : Type) : Type :=
| Ok (a : A)
| Raise (e : exn).
Arguments Ok {A} a.
Arguments Raise {A} e.

Definition bind {A B : Type} (r : result A) (k : A -> result B) : result B :=
  match r with
  | Ok a => k a
  | Raise e => Raise e
  end.

Notation "x <- r ;; k" := (bind r (fun x => k))
  (at level 61, r at next level, right associativity).

(* ================================================================== *)
(** ** Resource descriptors *)

Record ExtResource : Type := mkExtResource {
  resource_path : string;
  resource_type : string;
  ext_i : option nat
}.

(** [ExtResource.__str__] *)
Definition ExtResource_str (e : ExtResource) : string :=
  dedent (line 12 ("[ext_resource path=" ++ quoted ("res://" ++ resource_path e)
                   ++ " type=" ++ quoted (resource_type e)
                   ++ " id=" ++ str_of_opt (ext_i e) ++ "]")
          ++ sp 12).

(** The two concrete classes below [SubResourceAnimation]. *)
Inductive SubResourceClass : Type :=
| SubResourceSpinePlay
| SubResourceSpineSkin.

(** An instance of [SubResourceSpinePlay] or [SubResourceSpineSkin].  [tracks]
    exists on skins only; each track is the text [add_track] formatted. *)
Record SubResource : Type := mkSubResource {
  sr_class : SubResourceClass;
  base_resource_name : string;
  node_name : string;
  sr_i : option nat;
  resource_name : string;
  tracks : list string
}.

(** [SubResourceAnimation.resource_type] *)
Definition sub_resource_type : string := "Animation".

Definition isinstance_SubResourceSpineSkin (sr : SubResource) : bool :=
  match sr_class sr with
  | SubResourceSpineSkin => true
  | SubResourceSpinePlay => false
  end.

(** Both classes derive from [SubResourceAnimation]. *)
Definition isinstance_SubResourceAnimation (sr : SubResource) : bool :=
  match sr_class sr with
  | SubResourceSpineSkin => true
  | SubResourceSpinePlay => true
  end.

(** The text of one track, as [add_track] formats it. *)
Definition track_text (i : nat) (node base : string) : string :=
  let t := "tracks/" ++ str_of_nat i in
  dedent (line 12 (t ++ "/type = " ++ quoted "value")
          ++ line 12 (t ++ "/path = NodePath(" ++ quoted (node ++ ":playback/skin") ++ ")")
          ++ line 12 (t ++ "/interp = 1")
          ++ line 12 (t ++ "/loop_wrap = true")
          ++ line 12 (t ++ "/imported = false")
          ++ line 12 (t ++ "/enabled = true")
          ++ line 12 (t ++ "/keys = {")
          ++ line 12 (quoted "times" ++ ": PoolRealArray( 0 ),")
          ++ line 12 (quoted "transitions" ++ ": PoolRealArray( 1 ),")
          ++ line 12 (quoted "update" ++ ": 1,")
          ++ line 12 (quoted "values" ++ ": [ " ++ quoted base ++ " ]")
          ++ line 12 "}"
          ++ sp 12).

(** [SubResourceSpineSkin.add_track] *)
Definition add_track (sr : SubResource) (node : string) : SubResource :=
  mkSubResource (sr_class sr) (base_resource_name sr) (node_name sr) (sr_i sr)
    (resource_name sr)
    (tracks sr ++ [track_text (List.length (tracks sr)) node (base_resource_name sr)])%list.

(** [SubResourceSpinePlay(resource_name=..., node_name=...)] *)
Definition new_SubResourceSpinePlay (name node : string) : SubResource :=
  mkSubResource SubResourceSpinePlay name node None (node ++ "__" ++ name) [].

(** [SubResourceSpineSkin(resource_name=..., node_name=...)] *)
Definition new_SubResourceSpineSkin (name node : string) : SubResource :=
  add_track
    (mkSubResource SubResourceSpineSkin name node None (node ++ "__skin__" ++ name) [])
    node.

Definition new_sub_resource (c : SubResourceClass) (name node : string) : SubResource :=
  match c with
  | SubResourceSpinePlay => new_SubResourceSpinePlay name node
  | SubResourceSpineSkin => new_SubResourceSpineSkin name node
  end.

Definition set_sr_i (i : nat) (sr : SubResource) : SubResource :=
  mkSubResource (sr_class sr) (base_resource_name sr) (node_name sr) (Some i)
    (resource_name sr) (tracks sr).

Definition set_ext_i (i : nat) (e : ExtResource) : ExtResource :=
  mkExtResource (resource_path e) (resource_type e) (Some i).

(** [SubResourceSpinePlay.__str__] *)
Definition SubResourceSpinePlay_str (sr : SubResource) : string :=
  dedent (line 12 ("[sub_resource type=" ++ quoted sub_resource_type
                   ++ " id=" ++ str_of_opt (sr_i sr) ++ "]")
          ++ nl
          ++ line 12 ("resource_name = " ++ quoted (resource_name sr))
          ++ line 12 "length = 1.0"
          ++ line 12 "loop = false"
          ++ line 12 "step = 0.1"
          ++ line 12 ("tracks/0/type = " ++ quoted "value")
          ++ line 12 ("tracks/0/path = NodePath("
                      ++ quoted (node_name sr ++ ":playback/play") ++ ")")
          ++ line 12 "tracks/0/interp = 1"
          ++ line 12 "tracks/0/loop_wrap = false"
          ++ line 12 "tracks/0/imported = false"
          ++ line 12 "tracks/0/enabled = true"
          ++ line 12 "tracks/0/keys = {"
          ++ line 12 (quoted "times" ++ ": PoolRealArray( 0, 1 ),")
          ++ line 12 (quoted "transitions" ++ ": PoolRealArray( 1, 1 ),")
          ++ line 12 (quoted "update" ++ ": 1,")
          ++ line 12 (quoted "values" ++ ": [ " ++ quoted (base_resource_name sr)
                      ++ ", " ++ quoted "[stop]" ++ " ]")
          ++ line 12 "}"
          ++ nl
          ++ sp 12).

(** [SubResourceSpineSkin.__str__] *)
Definition SubResourceSpineSkin_str (sr : SubResource) : string :=
  let out :=
    dedent (line 12 ("[sub_resource type=" ++ quoted sub_resource_type
                     ++ " id=" ++ str_of_opt (sr_i sr) ++ "]")
            ++ nl
            ++ line 12 ("resource_name = " ++ quoted (resource_name sr))
            ++ line 12 "length = 0.01"
            ++ line 12 "loop = false"
            ++ line 12 "step = 0.1"
            ++ sp 12) in
  let out := fold_left (fun out track_data => out ++ track_data) (tracks sr) out in
  out ++ nl.

Definition SubResource_str (sr : SubResource) : string :=
  match sr_class sr with
  | SubResourceSpinePlay => SubResourceSpinePlay_str sr
  | SubResourceSpineSkin => SubResourceSpineSkin_str sr
  end.

(* ================================================================== *)
(** ** Nodes *)

(** The children of the root: instances of [SpineNode], [AnimationPlayerNode]
    and [ExtraNode].  An entry [(i, a)] of [animations] is the pair of the id
    [i] and the sub-resource object stored at position [a] of the root's
    [sub_resources]. *)
Inductive Node : Type :=
| SpineNode (name parent : string) (index : nat) (ext_resource_i : option nat)
| AnimationPlayerNode (name parent : string) (index : nat)
                      (animations : list (nat * nat))
| ExtraNode (data : string).

(** [SpineNode.node_type] and [AnimationPlayerNode.node_type] *)
Definition SpineNode_type : string := "Spine".
Definition AnimationPlayerNode_type : string := "AnimationPlayer".

(** The first line of a child node's block. *)
Definition node_heading (name type parent : string) (index : nat) : string :=
  "[node name=" ++ quoted name ++ " type=" ++ quoted type
  ++ " parent=" ++ quoted parent ++ " index=" ++ quoted (str_of_nat index) ++ "]".

(** [SpineNode.__str__] *)
Definition SpineNode_str (name parent : string) (index : nat)
           (ext_resource_i : option nat) : string :=
  dedent (line 12 (node_heading name SpineNode_type parent index)
          ++ nl
          ++ line 12 "process_mode = 1"
          ++ line 12 "speed = 1.0"
          ++ line 12 "active = true"
          ++ line 12 "skip_frames = 0"
          ++ line 12 "debug_bones = false"
          ++ line 12 "flip_x = false"
          ++ line 12 "flip_y = false"
          ++ line 12 ("fx_prefix = " ++ quoted "fx/")
          ++ line 12 ("resource = ExtResource( " ++ str_of_opt ext_resource_i ++ " )")
          ++ line 12 ("playback/play = " ++ quoted "[stop]")
          ++ line 12 "playback/loop = true"
          ++ line 12 "playback/forward = true"
          ++ line 12 ("playback/skin = " ++ quoted "default")
          ++ line 12 "debug/region = false"
          ++ line 12 "debug/mesh = false"
          ++ line 12 "debug/skinned_mesh = false"
          ++ line 12 "debug/bounding_box = false"
          ++ line 12 ("_sections_unfolded = [ " ++ quoted "playback" ++ ", "
                      ++ quoted "Transform" ++ ", " ++ quoted "Visibility" ++ " ]")
          ++ nl
          ++ sp 12).

(** One [anims/...] line of the animation player; [sr] is the object the
    entry refers to. *)
Definition anims_line (i : nat) (sr : SubResource) : string :=
  "anims/" ++ resource_name sr ++ " = SubResource( " ++ str_of_nat i ++ " )" ++ nl.

(** [AnimationPlayerNode.__str__]; [heap] holds the sub-resource objects the
    entries of [animations] refer to. *)
Definition AnimationPlayerNode_str (heap : list SubResource) (name parent : string)
           (index : nat) (animations : list (nat * nat)) : string :=
  let out := dedent (line 12 (node_heading name AnimationPlayerNode_type parent index)
                     ++ nl
                     ++ sp 12) in
  let out := dedent (line 12 out
                     ++ line 12 ("root_node = NodePath(" ++ quoted ".." ++ ")")
                     ++ line 12 ("autoplay = " ++ dq ++ dq)
                     ++ line 12 "playback_process_mode = 1"
                     ++ line 12 "playback_default_blend_time = 0.0"
                     ++ line 12 "playback_speed = 1.0"
                     ++ sp 12) in
  let out := fold_left
               (fun out '(i, a) =>
                  match nth_error heap a with
                  | Some sr => out ++ anims_line i sr
                  | None => out
                  end) animations out in
  out ++ "blend_times = [  ]" ++ nl.

Definition Node_str (heap : list SubResource) (c : Node) : string :=
  match c with
  | SpineNode n p i e => SpineNode_str n p i e
  | AnimationPlayerNode n p i anims => AnimationPlayerNode_str heap n p i anims
  | ExtraNode data => data
  end.

(** The root, an instance of [MainNode] itself.  [animation_player] is the
    position in [children] of the object the attribute of that name refers
    to, [None] while the attribute is not set. *)
Record MainNode : Type := mkMainNode {
  name : string;
  node_type : string;
  parent : option string;
  script : option string;
  load_steps : option nat;
  ext_resources : list ExtResource;
  sub_resources : list SubResource;
  children : list Node;
  animation_player : option nat
}.

Definition with_load_steps (v : option nat) (m : MainNode) : MainNode :=
  mkMainNode (name m) (node_type m) (parent m) (script m) v
    (ext_resources m) (sub_resources m) (children m) (animation_player m).

Definition with_ext_resources (v : list ExtResource) (m : MainNode) : MainNode :=
  mkMainNode (name m) (node_type m) (parent m) (script m) (load_steps m)
    v (sub_resources m) (children m) (animation_player m).

Definition with_sub_resources (v : list SubResource) (m : MainNode) : MainNode :=
  mkMainNode (name m) (node_type m) (parent m) (script m) (load_steps m)
    (ext_resources m) v (children m) (animation_player m).

Definition with_children (v : list Node) (m : MainNode) : MainNode :=
  mkMainNode (name m) (node_type m) (parent m) (script m) (load_steps m)
    (ext_resources m) (sub_resources m) v (animation_player m).

Definition with_animation_player (v : option nat) (m : MainNode) : MainNode :=
  mkMainNode (name m) (node_type m) (parent m) (script m) (load_steps m)
    (ext_resources m) (sub_resources m) (children m) v.

(** [MainNode.add_ext_resource] *)
Definition add_ext_resource (self : MainNode) (path type : string) : MainNode :=
  with_ext_resources (ext_resources self ++ [mkExtResource path type None])%list self.

(** [MainNode.__init__], called with [name], [node_type] and [script]. *)
Definition MainNode_init (name node_type : string) (script : option string) : MainNode :=
  let self := mkMainNode name node_type None script None [] [] [] None in
  match script with
  | Some s => add_ext_resource self s "Script"
  | None => self
  end.

(** [MainNode.add_sub_resource] *)
Definition add_sub_resource (self : MainNode) (class_ : SubResourceClass)
           (resource_name node_name : string) : MainNode :=
  with_sub_resources
    (sub_resources self ++ [new_sub_resource class_ resource_name node_name])%list self.

(** What [json.load] returned, as far as the script looks at it: the keys of
    the [animations] and [skins] mappings in their order, [None] for a key
    the top-level object does not have. *)
Record SpineJson : Type := mkSpineJson {
  animations : option (list string);
  skins : option (list string)
}.

(** What opening and parsing an input file gives. *)
Inductive FileContent : Type :=
| Unreadable
| NotJson
| Json (json_data : SpineJson).

(** The name [add_spine_child] gives the node of [json_file]. *)
Definition spine_node_name (json_file : string) : string :=
  let base_name := replace "." "_" (replace ".json" EmptyString (basename json_file)) in
  "spine_" ++ base_name.

(** [json_data[key].keys()] *)
Definition keys_of (key : string) (v : option (list string)) : result (list string) :=
  match v with
  | Some ks => Ok ks
  | None => Raise (KeyError key)
  end.

(** [MainNode.add_spine_child]; [content] is what the file system holds at
    [json_file]. *)
Definition add_spine_child (self : MainNode) (json_file : string)
           (content : FileContent) (index : nat) : result MainNode :=
  match content with
  | Unreadable => Raise OSError
  | NotJson => Raise JSONDecodeError
  | Json json_data =>
      let self := add_ext_resource self json_file "SpineResource" in
      let node_name := spine_node_name json_file in
      let child := SpineNode node_name "." index
                             (Some (List.length (ext_resources self))) in
      let self := with_children (children self ++ [child])%list self in
      animation_names <- keys_of "animations" (animations json_data) ;;
      let self := fold_left (fun self animation_name =>
                               add_sub_resource self SubResourceSpinePlay
                                                animation_name node_name)
                            animation_names self in
      skin_names <- keys_of "skins" (skins json_data) ;;
      Ok (fold_left (fun self skin_name =>
                       add_sub_resource self SubResourceSpineSkin skin_name node_name)
                    skin_names self)
  end.

(** [MainNode.add_extra_file]; [extra index] is the text of the file after
    [data.format(index=index)]. *)
Definition add_extra_file (self : MainNode) (extra : nat -> string) : MainNode :=
  let data := extra (List.length (children self)) in
  with_children (children self ++ [ExtraNode data])%list self.

(** [MainNode.add_animation_player] *)
Definition add_animation_player (self : MainNode) : result MainNode :=
  match parent self with
  | Some _ => Raise AssertionError
  | None =>
      let index := List.length (children self) in
      let self := with_animation_player (Some index) self in
      Ok (with_children
            (children self ++ [AnimationPlayerNode "animation" "." index []])%list self)
  end.

(** The inner loop of [fix_spine_sub_resources] for one skin. *)
Definition add_other_tracks (nodes_with_skins : list string) (skin : SubResource)
  : SubResource :=
  fold_left (fun skin node_name' =>
               if String.eqb (node_name skin) node_name' then skin
               else add_track skin node_name')
            nodes_with_skins skin.

(** [animations.append((i, a))] on an animation player. *)
Definition append_animation (e : nat * nat) (c : Node) : Node :=
  match c with
  | AnimationPlayerNode n p i anims => AnimationPlayerNode n p i (anims ++ [e])%list
  | _ => c
  end.

(** The key the script sorts sub-resources by; an element is the position of
    the object together with the object. *)
Definition by_resource_name (e : nat * SubResource) : string := resource_name (snd e).

(** [sorted(self.sub_resources, key=operator.attrgetter('resource_name'))] *)
Definition sorted_sub_resources (subs : list SubResource) : list (nat * SubResource) :=
  sorted by_resource_name (enumerate subs).

(** The first loop of [fix_spine_sub_resources]: every skin gets a track for
    each other node that has skins.  [set_iter l] is the order in which
    Python iterates over [set(l)]: the interpreter fixes it for one run, from
    the hashes of the strings. *)
Definition sync_skin_tracks (set_iter : list string -> list string)
           (subs : list SubResource) : list SubResource :=
  let spine_skins := filter isinstance_SubResourceSpineSkin subs in
  let nodes_with_skins := set_iter (map node_name spine_skins) in
  map (fun sr => if isinstance_SubResourceSpineSkin sr
                 then add_other_tracks nodes_with_skins sr else sr) subs.

(** The second loop of [fix_spine_sub_resources], for the animation player
    at position [ap] of the children. *)
Definition bind_animations (ap : nat) (self : MainNode) : MainNode :=
  fold_left
    (fun self '(i, (a, sub_resource)) =>
       if isinstance_SubResourceAnimation sub_resource
       then with_children
              (update_nth ap (append_animation (i + 1, a)) (children self)) self
       else self)
    (enumerate (sorted_sub_resources (sub_resources self))) self.

(** [MainNode.fix_spine_sub_resources] *)
Definition fix_spine_sub_resources (set_iter : list string -> list string)
           (self : MainNode) : result MainNode :=
  let self :=
    with_sub_resources (sync_skin_tracks set_iter (sub_resources self)) self in
  match animation_player self, sub_resources self with
  | None, [] => Ok self
  | None, _ :: _ => Raise AttributeError
  | Some ap, _ => Ok (bind_animations ap self)
  end.

(** [MainNode.set_load_steps] *)
Definition set_load_steps (self : MainNode) : MainNode :=
  with_load_steps
    (Some (List.length (ext_resources self) + List.length (sub_resources self) + 1))
    self.

(* ================================================================== *)
(** ** Serialization *)

(** The body of the first loop of [MainNode.__str__]: the external resource
    at position [i] gets its id and is rendered. *)
Definition ext_loop_step (st : list ExtResource * string) (e : nat * ExtResource)
  : list ExtResource * string :=
  let '(exts, out) := st in
  let '(i, _) := e in
  let exts := update_nth i (set_ext_i (i + 1)) exts in
  match nth_error exts i with
  | Some ext_resource => (exts, out ++ ExtResource_str ext_resource)
  | None => (exts, out)
  end.

Definition ext_loop (exts : list ExtResource) : list ExtResource * string :=
  fold_left ext_loop_step (enumerate exts) (exts, EmptyString).

(** The body of the second loop of [MainNode.__str__]: the object at
    position [a] gets its id and is rendered. *)
Definition sub_loop_step (st : list SubResource * string)
           (e : nat * (nat * SubResource)) : list SubResource * string :=
  let '(subs, out) := st in
  let '(i, (a, _)) := e in
  let subs := update_nth a (set_sr_i (i + 1)) subs in
  match nth_error subs a with
  | Some sub_resource => (subs, out ++ SubResource_str sub_resource)
  | None => (subs, out)
  end.

(** The loop runs over the sub-resources in sorted order. *)
Definition sub_loop (subs : list SubResource) (out : string)
  : list SubResource * string :=
  fold_left sub_loop_step (enumerate (sorted_sub_resources subs)) (subs, out).

(** The heading of the root's own block, as the template of
    [MainNode.__str__] gives it. *)
Definition root_heading (out name type : string) : string :=
  dedent (line 16 out
          ++ line 16 ("[node name=" ++ quoted name ++ " type=" ++ quoted type ++ "]")
          ++ nl
          ++ sp 16).

(** The line that attaches the script to the root. *)
Definition script_line : string := "script = ExtResource( 1 )" ++ nl ++ nl.

(** The header line with the number of load steps. *)
Definition gd_scene_header (load_steps : nat) : string :=
  "[gd_scene load_steps=" ++ str_of_nat load_steps ++ " format=2]".

(** [MainNode.__str__] on the root: the text, and the root with the ids the
    call stored in its resources. *)
Definition MainNode_str_state (self : MainNode) : MainNode * string :=
  let '(exts, out) := ext_loop (ext_resources self) in
  let out := match out with
             | EmptyString => out
             | _ => out ++ nl
             end in
  let '(subs, out) := sub_loop (sub_resources self) out in
  let self := with_sub_resources subs (with_ext_resources exts self) in
  let out := match parent self with
             | None => root_heading out (name self) (node_type self)
             | Some _ => out
             end in
  let out := match script self with
             | Some _ => out ++ script_line
             | None => out
             end in
  let out := fold_left (fun out child => out ++ Node_str (sub_resources self) child)
                       (children self) out in
  let out := match load_steps self with
             | Some n => gd_scene_header n ++ nl ++ nl ++ strip out
             | None => out
             end in
  (self, out).

(** [str(self)] *)
Definition MainNode_str (self : MainNode) : string := snd (MainNode_str_state self).

(** The root after [str(self)]. *)
Definition serialized (self : MainNode) : MainNode := fst (MainNode_str_state self).

(* ================================================================== *)
(** ** The build *)

(** The command line after [docopt]: the input files with what the file
    system holds for each, [-t], [-n], [-e] (as the text of the file after
    formatting, a function of the index) and [-s]. *)
Record Args : Type := mkArgs {
  arg_json : list (string * FileContent);
  arg_t : string;
  arg_n : string;
  arg_e : option (nat -> string);
  arg_s : option string
}.

(** The loop of [build_tree] over the input files, from index [k] on. *)
Definition add_spine_children (k : nat) (inputs : list (string * FileContent))
           (r : result MainNode) : result MainNode :=
  fold_left (fun r '(i, (json_file, content)) =>
               main_node <- r ;;
               add_spine_child main_node json_file content i)
            (combine (seq k (List.length inputs)) inputs) r.

(** [build_tree] *)
Definition build_tree (set_iter : list string -> list string) (args : Args)
  : result MainNode :=
  let main_node := MainNode_init (arg_n args) (arg_t args) (arg_s args) in
  main_node <- add_spine_children 0 (arg_json args) (Ok main_node) ;;
  let main_node := match arg_e args with
                   | Some extra => add_extra_file main_node extra
                   | None => main_node
                   end in
  main_node <- add_animation_player main_node ;;
  main_node <- fix_spine_sub_resources set_iter main_node ;;
  Ok (set_load_steps main_node).

(** [main]: what is written to standard output, and the exit status or the
    exception that ends the process. *)
Definition main (set_iter : list string -> list string) (project_godot : bool)
           (args : Args) : string * result nat :=
  if negb project_godot
  then ("Run this in your project root so paths are resolved correctly." ++ nl, Ok 1)
  else match build_tree set_iter args with
       | Raise e => (EmptyString, Raise e)
       | Ok tree => (MainNode_str tree ++ nl, Ok 0)
       end.

(** Insertion order, one of the orders a set can be iterated in. *)
Definition insertion_order (l : list string) : list string := nodup string_dec l.

(** The reverse of it, another one. *)
Definition reverse_order (l : list string) : list string := rev (nodup string_dec l).

Definition valid_json (a s : list string) : FileContent :=
  Json (mkSpineJson (Some a) (Some s)).

(** The content of an input file that has both keys. *)
Definition InputFile : Type := (string * (list string * list string))%type.

Definition valid_inputs (files : list InputFile) : list (string * FileContent) :=
  map (fun '(p, (a, s)) => (p, valid_json a s)) files.

(** *** What a build from valid files consists of *)

Definition script_exts (script : option string) : list ExtResource :=
  match script with
  | Some p => [mkExtResource p "Script" None]
  | None => []
  end.

Definition file_ext (f : InputFile) : ExtResource :=
  mkExtResource (fst f) "SpineResource" None.

Definition file_subs (f : InputFile) : list SubResource :=
  let node := spine_node_name (fst f) in
  (map (fun a => new_SubResourceSpinePlay a node) (fst (snd f))
   ++ map (fun s => new_SubResourceSpineSkin s node) (snd (snd f)))%list.

(** The children made for the files, the first with index [k] when [e]
    external resources exist before its own. *)
Fixpoint spine_children (k e : nat) (files : list InputFile) : list Node :=
  match files with
  | [] => []
  | f :: files' =>
      SpineNode (spine_node_name (fst f)) "." k (Some (S e))
      :: spine_children (S k) (S e) files'
  end.

Definition extra_children (k : nat) (extra : option (nat -> string)) : list Node :=
  match extra with
  | Some f => [ExtraNode (f k)]
  | None => []
  end.


(** The pairs the animation player holds after the build: ids in sorted
    order, each with the position of its object. *)
Definition bound_animations (subs : list SubResource) : list (nat * nat) :=
  map (fun '(i, (a, _)) => (i + 1, a)) (enumerate (sorted_sub_resources subs)).

(** The root that [build_tree] returns for valid files. *)
Definition built (set_iter : list string -> list string) (files : list InputFile)
           (t n : string) (e : option (nat -> string)) (s : option string) : MainNode :=
  let exts := (script_exts s ++ map file_ext files)%list in
  let subs := sync_skin_tracks set_iter (flat_map file_subs files) in
  let nodes := (spine_children 0 (List.length (script_exts s)) files
                ++ extra_children (List.length files) e)%list in
  mkMainNode n t None s
    (Some (List.length exts + List.length subs + 1))
    exts subs
    (nodes ++ [AnimationPlayerNode "animation" "." (List.length nodes)
                                   (bound_animations subs)])%list
    (Some (List.length nodes)).

(** *** The blocks of the document *)

(** The text of consecutive blocks. *)
Definition join (blocks : list string) : string :=
  fold_right String.append EmptyString blocks.

(** External resources with the ids [k + 1], [k + 2], ... in their order. *)
Fixpoint with_ext_ids (k : nat) (exts : list ExtResource) : list ExtResource :=
  match exts with
  | [] => []
  | e :: exts' => set_ext_i (k + 1) e :: with_ext_ids (S k) exts'
  end.

(** Sub-resources in sorted order, each with the id of its rank. *)
Definition with_sub_ids (s : list (nat * SubResource)) : list SubResource :=
  map (fun '(i, (_, sr)) => set_sr_i (i + 1) sr) (enumerate s).

Definition ext_blocks (self : MainNode) : list string :=
  map ExtResource_str (with_ext_ids 0 (ext_resources self)).

Definition sub_blocks (self : MainNode) : list string :=
  map SubResource_str (with_sub_ids (sorted_sub_resources (sub_resources self))).

Definition node_blocks (self : MainNode) : list string :=
  map (Node_str (sub_resources (serialized self))) (children self).

(** The text of the resource blocks, as [MainNode.__str__] has it when it
    reaches the nodes. *)
Definition resources_text (self : MainNode) : string :=
  let out := join (ext_blocks self) in
  match out with
  | EmptyString => out
  | _ => out ++ nl
  end ++ join (sub_blocks self).

Definition script_text (script : option string) : string :=
  match script with
  | Some _ => script_line
  | None => EmptyString
  end.

Definition is_SpineNode (c : Node) : bool :=
  match c with
  | SpineNode _ _ _ _ => true
  | _ => false
  end.

Definition is_AnimationPlayerNode (c : Node) : bool :=
  match c with
  | AnimationPlayerNode _ _ _ _ => true
  | _ => false
  end.

(** *** Sample inputs *)

(** One file whose animation [skin__blue] and skin [blue] get the same
    display name. *)
Definition same_name_args : Args :=
  mkArgs (valid_inputs [("x.json", (["skin__blue"], ["blue"]))])
         "Node2D" "player" None None.

Definition same_name_tree : MainNode :=
  built insertion_order [("x.json", (["skin__blue"], ["blue"]))]
        "Node2D" "player" None None.

(** One file with two animations and two skins. *)
Definition hero_files : list InputFile :=
  [("hero.json", (["idle"; "walk"], ["default"; "blue"]))].

Definition hero_args : Args :=
  mkArgs (valid_inputs hero_files) "KinematicBody2D" "player" None None.

Definition hero_tree : MainNode :=
  built insertion_order hero_files "KinematicBody2D" "player" None None.

(** *** Skins and tracks *)

(** What the script relies on when it iterates over a set: every element
    once, in some order. *)
Definition set_order (set_iter : list string -> list string) : Prop :=
  forall l, NoDup (set_iter l) /\ (forall x, In x (set_iter l) <-> In x l).

(** The file declares at least one skin. *)
Definition declares_skin (f : InputFile) : bool :=
  match snd (snd f) with
  | [] => false
  | _ :: _ => true
  end.

(** The names of the source nodes that declare at least one skin. *)
Definition skin_node_names (files : list InputFile) : list string :=
  map (fun f => spine_node_name (fst f)) (filter declares_skin files).


(** Three files with one skin each. *)
Definition three_files : list InputFile :=
  [("a.json", ([], ["default"])); ("b.json", ([], ["default"]));
   ("c.json", ([], ["default"]))].

Definition three_args : Args :=
  mkArgs (valid_inputs three_files) "Node2D" "player" None None.

(** *** Node names *)

(** The [name] attribute of a child; an [ExtraNode] has none. *)
Definition Node_name (c : Node) : option string :=
  match c with
  | SpineNode nm _ _ _ => Some nm
  | AnimationPlayerNode nm _ _ _ => Some nm
  | ExtraNode _ => None
  end.

Fixpoint map_chars (f : ascii -> ascii) (s : string) : string :=
  match s with
  | EmptyString => EmptyString
  | String c s' => String (f c) (map_chars f s')
  end.

(** Every dot replaced by an underscore. *)
Definition dots_to_underscores (s : string) : string :=
  map_chars (fun c => if Ascii.eqb c "."%char then "_"%char else c) s.

(** The node name as the specification words it: [spine_] followed by the
    basename with dots replaced by underscores. *)
Definition spec_node_name (json_file : string) : string :=
  "spine_" ++ dots_to_underscores (basename json_file).

(** The key [add_spine_child] fails on first. *)
Definition missing_key (d : SpineJson) : string :=
  match animations d with
  | None => "animations"
  | Some _ => "skins"
  end.

(** A file without the [animations] key, after a valid one. *)
Definition no_animations_args : Args :=
  mkArgs (valid_inputs hero_files
          ++ [("broken.json", Json (mkSpineJson None (Some ["default"])))])%list
         "Node2D" "player" None None.

(* ================================================================== *)
(** ** Further descriptions of inputs and documents *)

(** The file opens, parses and has both keys. *)
Definition valid_content (c : FileContent) : bool :=
  match c with
  | Json d =>
      match animations d, skins d with
      | Some _, Some _ => true
      | _, _ => false
      end
  | _ => false
  end.

(** The exception [add_spine_child] ends with on a file that is not valid. *)
Definition content_error (c : FileContent) : exn :=
  match c with
  | Unreadable => OSError
  | NotJson => JSONDecodeError
  | Json d => KeyError (missing_key d)
  end.

(** The number of sub-resources one file gives. *)
Definition file_sub_count (f : InputFile) : nat :=
  List.length (fst (snd f)) + List.length (snd (snd f)).

Definition script_count (script : option string) : nat :=
  match script with
  | Some _ => 1
  | None => 0
  end.

(** The [index] attribute of a child; an [ExtraNode] has none. *)
Definition Node_index (c : Node) : option nat :=
  match c with
  | SpineNode _ _ i _ => Some i
  | AnimationPlayerNode _ _ i _ => Some i
  | ExtraNode _ => None
  end.

(** Tracks of a skin of name [base] over the nodes [nodes], numbered from
    [k]. *)
Definition numbered_tracks (k : nat) (base : string) (nodes : list string)
  : list string :=
  map (fun '(i, node) => track_text i node base)
      (combine (seq k (List.length nodes)) nodes).

(** A valid file followed by one that cannot be opened and one that is not
    JSON. *)
Definition unreadable_args : Args :=
  mkArgs (valid_inputs hero_files
          ++ [("gone.json", Unreadable); ("text.json", NotJson)])%list
         "Node2D" "player" None None.

(** Two entries of the sorted order that name the same object, the second
    possibly with another id stored in it. *)
Definition same_object (x y : nat * SubResource) : Prop :=
  fst x = fst y /\ exists k, snd y = set_sr_i k (snd x).

(** The text [MainNode.__str__] has after its first loop. *)
Definition str_after_ext_loop (exts : list ExtResource) : string :=
  let out := join (map ExtResource_str (with_ext_ids 0 exts)) in
  match out with
  | EmptyString => out
  | _ => out ++ nl
  end.

(** What [MainNode.__str__] does after its two loops, with the sub-resource
    objects [subs] and the text [out] they left. *)
Definition str_after_loops (self : MainNode) (subs : list SubResource)
           (out : string) : string :=
  let out := match parent self with
             | None => root_heading out (name self) (node_type self)
             | Some _ => out
             end in
  let out := match script self with
             | Some _ => out ++ script_line
             | None => out
             end in
  let out := fold_left (fun out child => out ++ Node_str subs child)
                       (children self) out in
  match load_steps self with
  | Some n => gd_scene_header n ++ nl ++ nl ++ strip out
  | None => out
  end.

(** Two files with one skin each. *)
Definition two_files : list InputFile :=
  [("left.json", (["walk"], ["default"])); ("right.json", (["walk"], ["default"]))].

(** *** Templates *)

(** The text has no line break. *)
Fixpoint no_newline (s : string) : bool :=
  match s with
  | EmptyString => true
  | String c s' => negb (Ascii.eqb c nl_char) && no_newline s'
  end.

(** The text starts with a character other than a blank or a tab. *)
Definition starts_text (s : string) : bool :=
  match s with
  | EmptyString => false
  | String c _ => negb (is_indent c)
  end.

(** A line of a template as the source writes it: its text, or [None] for
    an empty line. *)
Definition template_line_ok (l : option string) : Prop :=
  match l with
  | Some s => no_newline s = true /\ starts_text s = true
  | None => True
  end.

(** The template whose lines are indented by [n] blanks and whose closing
    quotes are indented alike. *)
Definition template (n : nat) (ls : list (option string)) : string :=
  fold_right (fun l acc => match l with
                           | Some s => line n s ++ acc
                           | None => nl ++ acc
                           end) (sp n) ls.

(** The same lines without indentation. *)
Definition flush_left (ls : list (option string)) : string :=
  fold_right (fun l acc => match l with
                           | Some s => s ++ nl ++ acc
                           | None => nl ++ acc
                           end) EmptyString ls.

Definition has_text_line (ls : list (option string)) : bool :=
  existsb (fun l => match l with Some _ => true | None => false end) ls.

(** A line of a template without its indentation. *)
Definition line_text (l : option string) : string :=
  match l with
  | Some s => s
  | None => EmptyString
  end.

(** A line of a template with its indentation, as splitting the template at
    line breaks gives it. *)
Definition indented_line (n : nat) (l : option string) : string :=
  match l with
  | Some s => sp n ++ s
  | None => EmptyString
  end.

(** *** The blocks without their indentation *)

(** The lines of a playback animation's block. *)
Definition SubResourceSpinePlay_lines (sr : SubResource) : list (option string) :=
  [ Some ("[sub_resource type=" ++ quoted sub_resource_type
          ++ " id=" ++ str_of_opt (sr_i sr) ++ "]");
    None;
    Some ("resource_name = " ++ quoted (resource_name sr));
    Some "length = 1.0";
    Some "loop = false";
    Some "step = 0.1";
    Some ("tracks/0/type = " ++ quoted "value");
    Some ("tracks/0/path = NodePath(" ++ quoted (node_name sr ++ ":playback/play") ++ ")");
    Some "tracks/0/interp = 1";
    Some "tracks/0/loop_wrap = false";
    Some "tracks/0/imported = false";
    Some "tracks/0/enabled = true";
    Some "tracks/0/keys = {";
    Some (quoted "times" ++ ": PoolRealArray( 0, 1 ),");
    Some (quoted "transitions" ++ ": PoolRealArray( 1, 1 ),");
    Some (quoted "update" ++ ": 1,");
    Some (quoted "values" ++ ": [ " ++ quoted (base_resource_name sr)
          ++ ", " ++ quoted "[stop]" ++ " ]");
    Some "}";
    None ].

(** The lines of a skin-change animation's block before its tracks. *)
Definition SubResourceSpineSkin_lines (sr : SubResource) : list (option string) :=
  [ Some ("[sub_resource type=" ++ quoted sub_resource_type
          ++ " id=" ++ str_of_opt (sr_i sr) ++ "]");
    None;
    Some ("resource_name = " ++ quoted (resource_name sr));
    Some "length = 0.01";
    Some "loop = false";
    Some "step = 0.1" ].

(** The lines of one track of a skin-change animation. *)
Definition track_lines (i : nat) (node base : string) : list (option string) :=
  let t := "tracks/" ++ str_of_nat i in
  [ Some (t ++ "/type = " ++ quoted "value");
    Some (t ++ "/path = NodePath(" ++ quoted (node ++ ":playback/skin") ++ ")");
    Some (t ++ "/interp = 1");
    Some (t ++ "/loop_wrap = true");
    Some (t ++ "/imported = false");
    Some (t ++ "/enabled = true");
    Some (t ++ "/keys = {");
    Some (quoted "times" ++ ": PoolRealArray( 0 ),");
    Some (quoted "transitions" ++ ": PoolRealArray( 1 ),");
    Some (quoted "update" ++ ": 1,");
    Some (quoted "values" ++ ": [ " ++ quoted base ++ " ]");
    Some "}" ].

(** The lines of a Spine node's block. *)
Definition SpineNode_lines (name parent : string) (index : nat)
           (ext_resource_i : option nat) : list (option string) :=
  [ Some (node_heading name SpineNode_type parent index);
    None;
    Some "process_mode = 1";
    Some "speed = 1.0";
    Some "active = true";
    Some "skip_frames = 0";
    Some "debug_bones = false";
    Some "flip_x = false";
    Some "flip_y = false";
    Some ("fx_prefix = " ++ quoted "fx/");
    Some ("resource = ExtResource( " ++ str_of_opt ext_resource_i ++ " )");
    Some ("playback/play = " ++ quoted "[stop]");
    Some "playback/loop = true";
    Some "playback/forward = true";
    Some ("playback/skin = " ++ quoted "default");
    Some "debug/region = false";
    Some "debug/mesh = false";
    Some "debug/skinned_mesh = false";
    Some "debug/bounding_box = false";
    Some ("_sections_unfolded = [ " ++ quoted "playback" ++ ", "
          ++ quoted "Transform" ++ ", " ++ quoted "Visibility" ++ " ]");
    None ].

(** The lines of the animation player's block before its animations. *)
Definition AnimationPlayerNode_lines (name parent : string) (index : nat)
  : list (option string) :=
  [ Some (node_heading name AnimationPlayerNode_type parent index);
    None;
    None;
    Some ("root_node = NodePath(" ++ quoted ".." ++ ")");
    Some ("autoplay = " ++ dq ++ dq);
    Some "playback_process_mode = 1";
    Some "playback_default_blend_time = 0.0";
    Some "playback_speed = 1.0" ].

(** The [anims/...] lines of the animation player. *)
Definition anims_text (heap : list SubResource) (animations : list (nat * nat))
  : string :=
  join (map (fun '(i, a) => match nth_error heap a with
                            | Some sr => anims_line i sr
                            | None => EmptyString
                            end) animations).

(** *** The heading of the root *)

(** The path and the names of the file hold no line break. *)
Definition clean_file (f : InputFile) : bool :=
  no_newline (fst f)
  && forallb no_newline (fst (snd f))
  && forallb no_newline (snd (snd f)).

Definition clean_script (script : option string) : bool :=
  match script with
  | Some p => no_newline p
  | None => true
  end.

(** The first line of the root's own block. *)
Definition root_line (name type : string) : string :=
  "[node name=" ++ quoted name ++ " type=" ++ quoted type ++ "]".

(** What [dedent] does to each line before it looks for the margin. *)
Definition blank_to_empty (l : string) : string :=
  if all_indent l then EmptyString else l.

(** *** Characters of a name *)

(** The character occurs in the text. *)
Fixpoint has_char (c : ascii) (s : string) : bool :=
  match s with
  | EmptyString => false
  | String x s' => Ascii.eqb x c || has_char c s'
  end.

(* ================================================================== *)
(** * Properties *)

(** ** The string operations on small inputs *)

Example dedent_common_margin :
  dedent (sp 4 ++ "a" ++ nl ++ sp 6 ++ "b" ++ nl ++ sp 4) = "a" ++ nl ++ "  b" ++ nl.
Proof. reflexivity. Qed.

Example dedent_no_margin :
  dedent (sp 4 ++ "a" ++ nl ++ "b" ++ nl ++ sp 4) = "    a" ++ nl ++ "b" ++ nl.
Proof. reflexivity. Qed.

Example dedent_blank_lines :
  dedent ("   " ++ nl ++ "  a" ++ nl ++ " " ++ String "009"%char "b" ++ nl ++ "  ")
  = nl ++ " a" ++ nl ++ String "009"%char "b" ++ nl.
Proof. reflexivity. Qed.

Example replace_all_occurrences :
  replace ".json" EmptyString "a.json.b.json" = "a.b"
  /\ replace "aa" "b" "aaa" = "ba".
Proof. split; reflexivity. Qed.

Example basename_after_last_slash :
  basename "x/y/hero.json" = "hero.json" /\ basename "hero.json" = "hero.json".
Proof. split; reflexivity. Qed.

Example strip_both_ends : strip (nl ++ " a b " ++ nl ++ nl) = "a b".
Proof. reflexivity. Qed.

Example str_of_nat_decimal : str_of_nat 0 = "0" /\ str_of_nat 12 = "12".
Proof. split; reflexivity. Qed.

Example sorted_is_stable :
  sorted snd [(0, "b"); (1, "a"); (2, "B"); (3, "a")]
  = [(2, "B"); (1, "a"); (3, "a"); (0, "b")].
Proof. reflexivity. Qed.

Example ExtResource_str_block :
  ExtResource_str (mkExtResource "hero.json" "SpineResource" (Some 1))
  = "[ext_resource path=" ++ quoted "res://hero.json"
    ++ " type=" ++ quoted "SpineResource" ++ " id=1]" ++ nl.
Proof. reflexivity. Qed.

Example hero_sub_resource_names :
  map resource_name (with_sub_ids (sorted_sub_resources (sub_resources hero_tree)))
  = ["spine_hero__idle"; "spine_hero__skin__blue"; "spine_hero__skin__default";
     "spine_hero__walk"].
Proof. reflexivity. Qed.

(** ** The build from valid files *)

Lemma add_sub_resources_fold (c : SubResourceClass) (node : string) :
  forall (names : list string) (self : MainNode),
    fold_left (fun self n => add_sub_resource self c n node) names self
    = with_sub_resources
        (sub_resources self ++ map (fun n => new_sub_resource c n node) names)%list self.
Proof.
  induction names as [|n names IH]; intros self; simpl.
  - rewrite app_nil_r. destruct self; reflexivity.
  - rewrite IH. unfold add_sub_resource, with_sub_resources; simpl.
    rewrite <- app_assoc. reflexivity.
Qed.

Lemma add_spine_child_valid (self : MainNode) p a s (i : nat) :
  add_spine_child self p (valid_json a s) i
  = Ok (mkMainNode (name self) (node_type self) (parent self) (script self)
          (load_steps self)
          (ext_resources self ++ [file_ext (p, (a, s))])
          (sub_resources self ++ file_subs (p, (a, s)))
          (children self
           ++ [SpineNode (spine_node_name p) "." i
                         (Some (S (List.length (ext_resources self))))])
          (animation_player self))%list.
Proof.
  unfold add_spine_child, valid_json; simpl.
  rewrite !add_sub_resources_fold; simpl.
  unfold with_sub_resources, file_subs, file_ext; simpl.
  rewrite length_app, Nat.add_1_r, <- app_assoc. reflexivity.
Qed.

Lemma add_spine_children_raise (e : exn) :
  forall inputs k, add_spine_children k inputs (Raise e) = Raise e.
Proof.
  induction inputs as [|[p c] inputs IH]; intros k; [reflexivity|].
  unfold add_spine_children in *; simpl. apply IH.
Qed.

Lemma add_spine_children_cons k p c inputs r :
  add_spine_children k ((p, c) :: inputs) r
  = add_spine_children (S k) inputs (main_node <- r ;; add_spine_child main_node p c k).
Proof. reflexivity. Qed.

Lemma add_spine_children_valid :
  forall (files : list InputFile) (k : nat) (self : MainNode),
    add_spine_children k (valid_inputs files) (Ok self)
    = Ok (mkMainNode (name self) (node_type self) (parent self) (script self)
            (load_steps self)
            (ext_resources self ++ map file_ext files)
            (sub_resources self ++ flat_map file_subs files)
            (children self
             ++ spine_children k (List.length (ext_resources self)) files)
            (animation_player self))%list.
Proof.
  induction files as [|[p [a s]] files IH]; intros k self.
  - unfold add_spine_children; simpl. rewrite !app_nil_r. destruct self; reflexivity.
  - change (valid_inputs ((p, (a, s)) :: files))
      with ((p, valid_json a s) :: valid_inputs files).
    rewrite add_spine_children_cons. cbn [bind].
    rewrite add_spine_child_valid, IH. simpl.
    rewrite <- !app_assoc, length_app, Nat.add_1_r. reflexivity.
Qed.

Lemma spine_children_length files : forall k e,
  List.length (spine_children k e files) = List.length files.
Proof. induction files; intros; simpl; auto. Qed.

Lemma update_nth_app {A : Type} (f : A -> A) (l : list A) (x : A) (r : list A) :
  update_nth (List.length l) f (l ++ x :: r) = (l ++ f x :: r)%list.
Proof. induction l; simpl; congruence. Qed.

Lemma update_nth_last {A : Type} (f : A -> A) (l : list A) (x : A) :
  update_nth (List.length l) f (l ++ [x]) = (l ++ [f x])%list.
Proof. apply update_nth_app. Qed.

Lemma isinstance_SubResourceAnimation_true sr :
  isinstance_SubResourceAnimation sr = true.
Proof. unfold isinstance_SubResourceAnimation. destruct (sr_class sr); reflexivity. Qed.

Lemma bind_animations_fold (C : list Node) n p k :
  forall (L : list (nat * (nat * SubResource))) anims self,
    children self = (C ++ [AnimationPlayerNode n p k anims])%list ->
    fold_left
      (fun self '(i, (a, sub_resource)) =>
         if isinstance_SubResourceAnimation sub_resource
         then with_children
                (update_nth (List.length C) (append_animation (i + 1, a))
                            (children self)) self
         else self) L self
    = with_children
        (C ++ [AnimationPlayerNode n p k
                 (anims ++ map (fun '(i, (a, _)) => (i + 1, a)) L)])%list self.
Proof.
  induction L as [|[i [a sr]] L IH]; intros anims self Hc; simpl.
  - rewrite app_nil_r, <- Hc. destruct self; reflexivity.
  - rewrite isinstance_SubResourceAnimation_true.
    rewrite (IH (anims ++ [(i + 1, a)])%list).
    + unfold with_children; simpl. rewrite <- app_assoc. reflexivity.
    + simpl. rewrite Hc, update_nth_last. reflexivity.
Qed.

(** What [build_tree] returns when every input file has both keys. *)
Lemma build_tree_valid set_iter files t n e s :
  build_tree set_iter (mkArgs (valid_inputs files) t n e s)
  = Ok (built set_iter files t n e s).
Proof.
  unfold build_tree; simpl.
  rewrite add_spine_children_valid. cbn [bind].
  assert (Hinit : MainNode_init n t s
                  = mkMainNode n t None s None (script_exts s) [] [] None)
    by (destruct s; reflexivity).
  rewrite Hinit; simpl.
  set (nodes := (spine_children 0 (List.length (script_exts s)) files
                 ++ extra_children (List.length files) e)%list).
  set (m := match e with Some extra => _ | None => _ end).
  assert (Hm : m = mkMainNode n t None s None
                     (script_exts s ++ map file_ext files)
                     (flat_map file_subs files) nodes None).
  { subst m nodes. destruct e; simpl.
    - unfold add_extra_file, with_children; simpl.
      rewrite spine_children_length. reflexivity.
    - rewrite app_nil_r. reflexivity. }
  rewrite Hm. unfold add_animation_player; simpl.
  unfold fix_spine_sub_resources; simpl.
  unfold bind_animations; simpl.
  erewrite bind_animations_fold by reflexivity.
  reflexivity.
Qed.

(** ** The order on strings *)

Lemma ascii_compare_trans_lt a b c :
  Ascii.compare a b = Lt -> Ascii.compare b c = Lt -> Ascii.compare a c = Lt.
Proof.
  unfold Ascii.compare. rewrite !N.compare_lt_iff. apply N.lt_trans.
Qed.

Lemma ascii_compare_eq a b : Ascii.compare a b = Eq -> a = b.
Proof.
  unfold Ascii.compare. rewrite N.compare_eq_iff. intros H.
  rewrite <- (ascii_N_embedding a), <- (ascii_N_embedding b). congruence.
Qed.

Lemma string_compare_trans_lt : forall a b c,
  String.compare a b = Lt -> String.compare b c = Lt -> String.compare a c = Lt.
Proof.
  induction a as [|x a IH]; intros [|y b] [|z c]; simpl; try congruence.
  destruct (Ascii.compare x y) eqn:Hxy; try discriminate;
    destruct (Ascii.compare y z) eqn:Hyz; try discriminate; intros H1 H2.
  - apply ascii_compare_eq in Hxy, Hyz. subst.
    assert (Hzz : Ascii.compare z z = Eq)
      by (unfold Ascii.compare; apply N.compare_refl).
    rewrite Hzz. eauto.
  - apply ascii_compare_eq in Hxy. subst. rewrite Hyz. reflexivity.
  - apply ascii_compare_eq in Hyz. subst. rewrite Hxy. reflexivity.
  - rewrite (ascii_compare_trans_lt _ _ _ Hxy Hyz). reflexivity.
Qed.

Lemma string_compare_refl : forall a, String.compare a a = Eq.
Proof.
  induction a as [|x a IH]; simpl; [reflexivity|].
  assert (Hx : Ascii.compare x x = Eq) by (unfold Ascii.compare; apply N.compare_refl).
  rewrite Hx. exact IH.
Qed.

Lemma leb_cases a b :
  String.leb a b = true <-> String.compare a b = Lt \/ a = b.
Proof.
  unfold String.leb. pose proof (String.compare_eq_iff a b) as E.
  pose proof (string_compare_refl a) as R.
  destruct (String.compare a b) eqn:C; split; intros H; try discriminate; auto.
  destruct H as [H|H]; [discriminate|]. subst b. congruence.
Qed.

Lemma leb_refl a : String.leb a a = true.
Proof. apply leb_cases. auto. Qed.

Lemma leb_trans a b c :
  String.leb a b = true -> String.leb b c = true -> String.leb a c = true.
Proof.
  rewrite !leb_cases. intros [H1|H1] [H2|H2]; subst; auto.
  left. eapply string_compare_trans_lt; eauto.
Qed.

Lemma leb_false_leb a b : String.leb a b = false -> String.leb b a = true.
Proof.
  intros H. destruct (String.leb_total a b) as [H'|H']; congruence.
Qed.

Lemma leb_neq_ltb a b : String.leb a b = true -> a <> b -> String.ltb a b = true.
Proof.
  rewrite leb_cases. unfold String.ltb. intros [H|H] Hn; [rewrite H|]; easy.
Qed.

Lemma ltb_irrefl a : String.ltb a a = false.
Proof.
  unfold String.ltb. rewrite string_compare_refl. reflexivity.
Qed.

(** ** [sorted] *)

Section Sorted.

Context {A : Type} (key : A -> string).

Lemma insert_by_perm x : forall l, Permutation (insert_by key x l) (x :: l).
Proof.
  induction l as [|y l IH]; simpl; [reflexivity|].
  destruct (String.leb (key x) (key y)); [reflexivity|].
  rewrite IH. apply perm_swap.
Qed.

Lemma sorted_perm : forall l, Permutation (sorted key l) l.
Proof.
  induction l as [|x l IH]; simpl; [reflexivity|].
  rewrite insert_by_perm. constructor. exact IH.
Qed.

Lemma insert_by_sorted x : forall l,
  StronglySorted (key_le key) l -> StronglySorted (key_le key) (insert_by key x l).
Proof.
  induction l as [|y l IH]; intros Hs; simpl.
  - repeat constructor.
  - inversion Hs as [|? ? Hl Hy]; subst.
    destruct (String.leb (key x) (key y)) eqn:E.
    + constructor; [exact Hs|]. constructor; [exact E|].
      rewrite Forall_forall in *. intros z Hz.
      unfold key_le in *. eapply leb_trans; eauto.
    + constructor; [auto|].
      rewrite Forall_forall in *. intros z Hz.
      apply (Permutation_in _ (insert_by_perm x l)) in Hz.
      destruct Hz as [<-|Hz]; [apply leb_false_leb; exact E|auto].
Qed.

Lemma sorted_sorted : forall l, StronglySorted (key_le key) (sorted key l).
Proof.
  induction l as [|x l IH]; simpl; [constructor|].
  apply insert_by_sorted. exact IH.
Qed.

Lemma sorted_length l : List.length (sorted key l) = List.length l.
Proof. apply Permutation_length, sorted_perm. Qed.

End Sorted.

(** ** Strings and positions *)

Lemma append_nil_r : forall s : string, s ++ EmptyString = s.
Proof. induction s; simpl; congruence. Qed.

Lemma append_assoc : forall a b c : string, (a ++ b) ++ c = a ++ (b ++ c).
Proof. induction a; intros; simpl; congruence. Qed.

Lemma join_app : forall l1 l2, join (l1 ++ l2) = join l1 ++ join l2.
Proof.
  induction l1 as [|x l1 IH]; intros l2; simpl; [reflexivity|].
  rewrite IH, append_assoc. reflexivity.
Qed.

Lemma fold_left_append {A : Type} (f : A -> string) :
  forall l out, fold_left (fun out x => out ++ f x) l out = out ++ join (map f l).
Proof.
  induction l as [|x l IH]; intros out; simpl.
  - rewrite append_nil_r. reflexivity.
  - rewrite IH, append_assoc. reflexivity.
Qed.

Lemma update_nth_length {A : Type} (f : A -> A) : forall l n,
  List.length (update_nth n f l) = List.length l.
Proof. induction l; intros [|n]; simpl; auto. Qed.

Lemma nth_error_update_nth_eq {A : Type} (f : A -> A) : forall l n,
  nth_error (update_nth n f l) n = option_map f (nth_error l n).
Proof. induction l; intros [|n]; simpl; auto. Qed.

Lemma nth_error_update_nth_neq {A : Type} (f : A -> A) : forall l n m,
  n <> m -> nth_error (update_nth n f l) m = nth_error l m.
Proof.
  induction l; intros [|n] [|m] H; simpl; auto; try congruence.
Qed.

Lemma in_combine_seq {A : Type} : forall (l : list A) k a x,
  In (a, x) (combine (seq k (List.length l)) l)
  <-> k <= a /\ nth_error l (a - k) = Some x.
Proof.
  induction l as [|y l IH]; intros k a x; simpl.
  - split; [tauto|]. intros [_ H]. destruct (a - k); discriminate.
  - rewrite IH. split.
    + intros [H|[H1 H2]].
      * inversion H; subst. rewrite Nat.sub_diag. auto.
      * split; [lia|]. replace (a - k) with (S (a - S k)) by lia. exact H2.
    + intros [H1 H2]. destruct (Nat.eq_dec k a) as [->|Hn].
      * rewrite Nat.sub_diag in H2. simpl in H2. left. congruence.
      * right. split; [lia|].
        replace (a - k) with (S (a - S k)) in H2 by lia. exact H2.
Qed.

Lemma in_enumerate {A : Type} (l : list A) a x :
  In (a, x) (enumerate l) <-> nth_error l a = Some x.
Proof.
  unfold enumerate. rewrite in_combine_seq, Nat.sub_0_r.
  split; [tauto|]. intros H. split; [lia|exact H].
Qed.

Lemma map_fst_combine_seq {A : Type} : forall (l : list A) k,
  map fst (combine (seq k (List.length l)) l) = seq k (List.length l).
Proof. induction l; intros k; simpl; [reflexivity|]. rewrite IHl. reflexivity. Qed.

Lemma map_snd_combine_seq {A : Type} : forall (l : list A) k,
  map snd (combine (seq k (List.length l)) l) = l.
Proof. induction l; intros k; simpl; [reflexivity|]. rewrite IHl. reflexivity. Qed.

Lemma enumerate_length {A : Type} (l : list A) :
  List.length (enumerate l) = List.length l.
Proof.
  unfold enumerate. rewrite length_combine, length_seq. apply Nat.min_id.
Qed.

(** ** The two id loops of [MainNode.__str__] *)

Lemma ext_loop_fold : forall rest done out,
  fold_left ext_loop_step
            (combine (seq (List.length done) (List.length rest)) rest)
            ((done ++ rest)%list, out)
  = ((done ++ with_ext_ids (List.length done) rest)%list,
     out ++ join (map ExtResource_str (with_ext_ids (List.length done) rest))).
Proof.
  induction rest as [|e rest IH]; intros done out.
  - simpl. rewrite append_nil_r. reflexivity.
  - cbn [List.length seq combine fold_left with_ext_ids map join fold_right].
    unfold ext_loop_step at 2.
    assert (Hu : update_nth (List.length done) (set_ext_i (List.length done + 1))
                            (done ++ e :: rest)
                 = ((done ++ [set_ext_i (List.length done + 1) e]) ++ rest)%list).
    { rewrite update_nth_app, <- app_assoc. reflexivity. }
    rewrite Hu.
    assert (Hn : nth_error ((done ++ [set_ext_i (List.length done + 1) e]) ++ rest)
                           (List.length done)
                 = Some (set_ext_i (List.length done + 1) e)).
    { rewrite <- app_assoc. rewrite nth_error_app2 by lia.
      rewrite Nat.sub_diag. reflexivity. }
    rewrite Hn.
    replace (S (List.length done))
      with (List.length (done ++ [set_ext_i (List.length done + 1) e]))
      by (rewrite length_app; simpl; lia).
    rewrite IH. rewrite <- app_assoc, append_assoc. reflexivity.
Qed.

Lemma ext_loop_spec exts :
  ext_loop exts
  = (with_ext_ids 0 exts, join (map ExtResource_str (with_ext_ids 0 exts))).
Proof.
  unfold ext_loop, enumerate. apply (ext_loop_fold exts [] EmptyString).
Qed.

Lemma sub_loop_fold : forall (L : list (nat * (nat * SubResource))) h out,
  NoDup (map (fun e => fst (snd e)) L) ->
  (forall i a sr, In (i, (a, sr)) L -> nth_error h a = Some sr) ->
  exists h',
    fold_left sub_loop_step L (h, out)
    = (h', out ++ join (map (fun '(i, (_, sr)) => SubResource_str (set_sr_i (i + 1) sr)) L))
    /\ List.length h' = List.length h
    /\ (forall i a sr, In (i, (a, sr)) L -> nth_error h' a = Some (set_sr_i (i + 1) sr))
    /\ (forall b, ~ In b (map (fun e => fst (snd e)) L) -> nth_error h' b = nth_error h b).
Proof.
  induction L as [|[i [a sr]] L IH]; intros h out Hnd Hh.
  - exists h. simpl. rewrite append_nil_r. repeat split; auto. intros ? ? ? [].
  - inversion Hnd as [|? ? Hnotin Hnd']; subst. cbn [fst snd] in Hnotin.
    assert (Ha : nth_error h a = Some sr) by (apply (Hh i); left; reflexivity).
    cbn [fold_left map join fold_right]. unfold sub_loop_step at 2.
    rewrite nth_error_update_nth_eq, Ha. cbn [option_map].
    destruct (IH (update_nth a (set_sr_i (i + 1)) h)
                 (out ++ SubResource_str (set_sr_i (i + 1) sr)) Hnd')
      as (h' & Hfold & Hlen & Hin & Hout).
    { intros j b sr' Hb. rewrite nth_error_update_nth_neq.
      - apply (Hh j). right. exact Hb.
      - intros ->. apply Hnotin.
        apply in_map_iff. exists (j, (b, sr')). split; [reflexivity|exact Hb]. }
    exists h'. rewrite Hfold, append_assoc. split; [reflexivity|].
    split; [rewrite Hlen; apply update_nth_length|]. split.
    + intros j b sr' [Hb|Hb].
      * inversion Hb; subst. rewrite Hout by exact Hnotin.
        rewrite nth_error_update_nth_eq, Ha. reflexivity.
      * apply Hin. exact Hb.
    + intros b Hb. simpl in Hb. rewrite Hout by tauto.
      apply nth_error_update_nth_neq. intros ->. tauto.
Qed.

Lemma sorted_sub_resources_perm subs :
  Permutation (sorted_sub_resources subs) (enumerate subs).
Proof. apply sorted_perm. Qed.

Lemma sorted_sub_resources_addresses subs :
  Permutation (map fst (sorted_sub_resources subs)) (seq 0 (List.length subs)).
Proof.
  rewrite (Permutation_map fst (sorted_sub_resources_perm subs)).
  unfold enumerate. rewrite map_fst_combine_seq. reflexivity.
Qed.

Lemma sorted_sub_resources_length subs :
  List.length (sorted_sub_resources subs) = List.length subs.
Proof.
  unfold sorted_sub_resources. rewrite sorted_length. apply enumerate_length.
Qed.

Lemma in_sorted_sub_resources subs a sr :
  In (a, sr) (sorted_sub_resources subs) <-> nth_error subs a = Some sr.
Proof.
  rewrite <- in_enumerate. split; apply Permutation_in;
    [|symmetry]; apply sorted_sub_resources_perm.
Qed.

Lemma with_sub_ids_blocks s :
  map (fun '(i, (_, sr)) => SubResource_str (set_sr_i (i + 1) sr)) (enumerate s)
  = map SubResource_str (with_sub_ids s).
Proof.
  unfold with_sub_ids. rewrite map_map. apply map_ext.
  intros [i [a sr]]. reflexivity.
Qed.

(** The second loop writes into each object the id of its rank in the sorted
    order, and renders the objects in that order. *)
Lemma sub_loop_spec subs out :
  exists h',
    sub_loop subs out
    = (h', out ++ join (map SubResource_str (with_sub_ids (sorted_sub_resources subs))))
    /\ List.length h' = List.length subs
    /\ (forall i a sr, In (i, (a, sr)) (enumerate (sorted_sub_resources subs)) ->
                       nth_error h' a = Some (set_sr_i (i + 1) sr)).
Proof.
  destruct (sub_loop_fold (enumerate (sorted_sub_resources subs)) subs out)
    as (h' & Hfold & Hlen & Hin & _).
  - replace (map (fun e : nat * (nat * SubResource) => fst (snd e))
                 (enumerate (sorted_sub_resources subs)))
      with (map fst (sorted_sub_resources subs)).
    + eapply Permutation_NoDup; [symmetry; apply sorted_sub_resources_addresses|].
      apply seq_NoDup.
    + rewrite <- (map_snd_combine_seq (sorted_sub_resources subs) 0) at 1.
      rewrite map_map. reflexivity.
  - intros i a sr H. apply in_sorted_sub_resources.
    apply in_enumerate in H. eapply nth_error_In. exact H.
  - exists h'. rewrite <- with_sub_ids_blocks. auto.
Qed.

(** The text [MainNode.__str__] returns for a root that has its load steps:
    the header, then the resource blocks, the root's own block and the
    blocks of the children, stripped. *)
Lemma MainNode_str_layout self n :
  parent self = None ->
  load_steps self = Some n ->
  MainNode_str self
  = gd_scene_header n ++ nl ++ nl
    ++ strip (root_heading (resources_text self) (name self) (node_type self)
              ++ script_text (script self)
              ++ join (node_blocks self)).
Proof.
  intros Hp Hl.
  unfold node_blocks, serialized, MainNode_str, MainNode_str_state.
  rewrite ext_loop_spec.
  set (out0 := match join _ with EmptyString => _ | _ => _ end).
  destruct (sub_loop_spec (sub_resources self) out0) as (h' & Hs & _ & _).
  rewrite Hs. cbn [fst snd]. simpl parent. simpl script. simpl load_steps.
  simpl name. simpl node_type. simpl children. simpl sub_resources.
  rewrite Hp, Hl. rewrite fold_left_append.
  unfold resources_text. fold (ext_blocks self). fold (sub_blocks self).
  subst out0. fold (ext_blocks self).
  destruct (script self); simpl script_text.
  - rewrite !append_assoc. reflexivity.
  - reflexivity.
Qed.

(** ** The root after serialization *)

Lemma serialized_ext_resources self :
  ext_resources (serialized self) = with_ext_ids 0 (ext_resources self).
Proof.
  unfold serialized, MainNode_str_state. rewrite ext_loop_spec.
  destruct (sub_loop _ _). reflexivity.
Qed.

Lemma serialized_sub_resources self :
  List.length (sub_resources (serialized self)) = List.length (sub_resources self)
  /\ (forall i a sr,
         In (i, (a, sr)) (enumerate (sorted_sub_resources (sub_resources self))) ->
         nth_error (sub_resources (serialized self)) a = Some (set_sr_i (i + 1) sr)).
Proof.
  unfold serialized, MainNode_str_state. rewrite ext_loop_spec.
  set (out0 := match join _ with EmptyString => _ | _ => _ end).
  destruct (sub_loop_spec (sub_resources self) out0) as (h' & Hs & Hlen & Hin).
  rewrite Hs. simpl. auto.
Qed.

Lemma serialized_children self : children (serialized self) = children self.
Proof.
  unfold serialized, MainNode_str_state.
  destruct (ext_loop _). destruct (sub_loop _ _). reflexivity.
Qed.

Lemma map_nth_error_seq {A : Type} : forall l : list A,
  map (nth_error l) (seq 0 (List.length l)) = map Some l.
Proof.
  induction l as [|x l IH]; simpl; [reflexivity|].
  f_equal. rewrite <- seq_shift, map_map. simpl. exact IH.
Qed.

Lemma map_Some_inj {A : Type} : forall l1 l2 : list A,
  map Some l1 = map Some l2 -> l1 = l2.
Proof.
  induction l1 as [|x l1 IH]; intros [|y l2] H; simpl in H; try discriminate; auto.
  inversion H; subst. f_equal. auto.
Qed.

(** The objects after serialization are the sorted objects with their ids. *)
Lemma serialized_sub_resources_perm self :
  Permutation (sub_resources (serialized self))
              (with_sub_ids (sorted_sub_resources (sub_resources self))).
Proof.
  destruct (serialized_sub_resources self) as [Hlen Hin].
  set (h' := sub_resources (serialized self)) in *.
  set (s := sorted_sub_resources (sub_resources self)) in *.
  assert (H1 : map (nth_error h') (map fst s) = map Some (with_sub_ids s)).
  { unfold with_sub_ids. rewrite map_map.
    rewrite <- (map_snd_combine_seq s 0) at 1. rewrite !map_map.
    apply map_ext_in. intros [i [a sr]] H. simpl. apply Hin. exact H. }
  assert (H2 : Permutation (map Some (with_sub_ids s)) (map Some h')).
  { rewrite <- H1, <- map_nth_error_seq, Hlen. apply Permutation_map.
    apply sorted_sub_resources_addresses. }
  apply Permutation_map_inv in H2. destruct H2 as (l3 & Heq & Hp).
  apply map_Some_inj in Heq. subst l3. exact Hp.
Qed.

Lemma StronglySorted_nth_error {A : Type} (R : A -> A -> Prop) :
  forall l, StronglySorted R l ->
  forall i j x y, nth_error l i = Some x -> nth_error l j = Some y -> i < j -> R x y.
Proof.
  induction 1 as [|z l Hs IH Hall]; intros i j x y Hi Hj Hlt.
  - destruct i; discriminate.
  - destruct j as [|j]; [lia|]. simpl in Hj. destruct i as [|i]; simpl in Hi.
    + inversion Hi; subst. rewrite Forall_forall in Hall.
      apply Hall. eapply nth_error_In. exact Hj.
    + eapply IH; eauto. lia.
Qed.

Lemma in_with_sub_ids s x :
  In x (with_sub_ids s)
  <-> exists i a sr, nth_error s i = Some (a, sr) /\ x = set_sr_i (i + 1) sr.
Proof.
  unfold with_sub_ids. rewrite in_map_iff. split.
  - intros ([i [a sr]] & Hx & Hin). apply in_enumerate in Hin. eauto.
  - intros (i & a & sr & Hn & ->). exists (i, (a, sr)). split; [reflexivity|].
    apply in_enumerate. exact Hn.
Qed.

Lemma with_sub_ids_ids s :
  map sr_i (with_sub_ids s) = map Some (seq 1 (List.length s)).
Proof.
  unfold with_sub_ids. rewrite map_map.
  rewrite <- seq_shift, map_map.
  rewrite <- (map_fst_combine_seq s 0). rewrite map_map.
  apply map_ext. intros [i [a sr]]. simpl. rewrite Nat.add_1_r. reflexivity.
Qed.

Lemma with_sub_ids_ascending subs x y i j :
  In x (with_sub_ids (sorted_sub_resources subs)) ->
  In y (with_sub_ids (sorted_sub_resources subs)) ->
  sr_i x = Some i -> sr_i y = Some j -> i < j ->
  String.leb (resource_name x) (resource_name y) = true.
Proof.
  rewrite !in_with_sub_ids.
  intros (i' & a & sx & Hx & ->) (j' & b & sy & Hy & ->) Hi Hj Hlt.
  simpl in Hi, Hj. inversion Hi; inversion Hj; subst. simpl.
  apply (StronglySorted_nth_error (key_le by_resource_name) _
           (sorted_sorted by_resource_name (enumerate subs)) i' j' (a, sx) (b, sy));
    auto. lia.
Qed.

(** ** Stability of [sorted] *)

Lemma insert_by_stable {A : Type} (key : A -> string) (x : nat * A) :
  forall l,
    Forall (fun z => fst x < fst z) l ->
    StronglySorted (stable_le key) l ->
    StronglySorted (stable_le key) (insert_by (fun e => key (snd e)) x l).
Proof.
  induction l as [|y l IH]; intros Hlt Hs; simpl.
  - repeat constructor.
  - inversion Hs as [|? ? Hl Hy]; subst. inversion Hlt as [|? ? Hxy Hlt']; subst.
    destruct (String.leb (key (snd x)) (key (snd y))) eqn:E.
    + constructor; [exact Hs|].
      rewrite Forall_forall in *. intros z [<-|Hz].
      * split; auto.
      * split; [|intros _; apply Hlt'; exact Hz].
        eapply leb_trans; [exact E|]. apply Hy. exact Hz.
    + constructor; [auto|].
      rewrite Forall_forall in *. intros z Hz.
      apply (Permutation_in _ (insert_by_perm _ x l)) in Hz.
      destruct Hz as [<-|Hz]; [|auto].
      split; [apply leb_false_leb; exact E|].
      intros Heq. rewrite Heq, leb_refl in E. discriminate.
Qed.

Lemma sorted_stable {A : Type} (key : A -> string) :
  forall l : list (nat * A),
    StronglySorted (fun x y => fst x < fst y) l ->
    StronglySorted (stable_le key) (sorted (fun e => key (snd e)) l).
Proof.
  induction l as [|x l IH]; intros Hs; simpl; [constructor|].
  inversion Hs as [|? ? Hl Hx]; subst.
  apply insert_by_stable; [|auto].
  rewrite Forall_forall in *. intros z Hz. apply Hx.
  eapply Permutation_in; [apply sorted_perm|exact Hz].
Qed.

Lemma combine_seq_ascending {A : Type} : forall (l : list A) k,
  StronglySorted (fun x y : nat * A => fst x < fst y)
                 (combine (seq k (List.length l)) l).
Proof.
  induction l as [|x l IH]; intros k; simpl; constructor; [apply IH|].
  rewrite Forall_forall. intros [a y] H. apply in_combine_seq in H. simpl. lia.
Qed.

Lemma sorted_sub_resources_stable subs :
  StronglySorted (stable_le resource_name) (sorted_sub_resources subs).
Proof. apply sorted_stable, combine_seq_ascending. Qed.

(** Every object is at one rank of the sorted order and holds the id of that
    rank after serialization. *)
Lemma serialized_at self a :
  a < List.length (sub_resources self) ->
  exists i sr,
    nth_error (sorted_sub_resources (sub_resources self)) i = Some (a, sr)
    /\ nth_error (sub_resources self) a = Some sr
    /\ nth_error (sub_resources (serialized self)) a = Some (set_sr_i (i + 1) sr).
Proof.
  intros Ha. destruct (nth_error (sub_resources self) a) as [sr|] eqn:E.
  - pose proof (proj2 (in_sorted_sub_resources _ _ _) E) as Hin.
    apply In_nth_error in Hin. destruct Hin as [i Hi].
    exists i, sr. repeat split; auto.
    apply (proj2 (serialized_sub_resources self)). apply in_enumerate. exact Hi.
  - apply nth_error_None in E. lia.
Qed.

(** ** Sub-resource ids *)

Lemma sync_skin_tracks_length set_iter subs :
  List.length (sync_skin_tracks set_iter subs) = List.length subs.
Proof. unfold sync_skin_tracks. apply length_map. Qed.

Lemma serialized_ids_contiguous self :
  Permutation (map sr_i (sub_resources (serialized self)))
              (map Some (seq 1 (List.length (sub_resources (serialized self))))).
Proof.
  rewrite (proj1 (serialized_sub_resources self)).
  rewrite (Permutation_map sr_i (serialized_sub_resources_perm self)).
  rewrite with_sub_ids_ids, sorted_sub_resources_length. reflexivity.
Qed.

Lemma serialized_ids_ascending self x y i j :
  In x (sub_resources (serialized self)) ->
  In y (sub_resources (serialized self)) ->
  sr_i x = Some i -> sr_i y = Some j -> i < j ->
  String.leb (resource_name x) (resource_name y) = true.
Proof.
  intros Hx Hy. apply (with_sub_ids_ascending (sub_resources self));
    eapply Permutation_in; try apply serialized_sub_resources_perm; assumption.
Qed.

Lemma serialized_ids_stable self a b x y i j :
  nth_error (sub_resources (serialized self)) a = Some x ->
  nth_error (sub_resources (serialized self)) b = Some y ->
  sr_i x = Some i -> sr_i y = Some j ->
  resource_name x = resource_name y -> a < b -> i < j.
Proof.
  intros Hx Hy Hi Hj Hname Hab.
  assert (Ha : a < List.length (sub_resources self)).
  { rewrite <- (proj1 (serialized_sub_resources self)).
    apply nth_error_Some. congruence. }
  assert (Hb : b < List.length (sub_resources self)).
  { rewrite <- (proj1 (serialized_sub_resources self)).
    apply nth_error_Some. congruence. }
  destruct (serialized_at self a Ha) as (i' & sx & Hsi & _ & Hx').
  destruct (serialized_at self b Hb) as (j' & sy & Hsj & _ & Hy').
  rewrite Hx in Hx'. rewrite Hy in Hy'.
  inversion Hx'; inversion Hy'; subst x y. simpl in *.
  inversion Hi; inversion Hj; subst i j.
  destruct (Nat.lt_trichotomy i' j') as [Hlt|[Heq|Hgt]]; [lia| |].
  - subst j'. rewrite Hsi in Hsj. inversion Hsj. lia.
  - pose proof (StronglySorted_nth_error _ _ (sorted_sub_resources_stable _)
                  j' i' (b, sy) (a, sx) Hsj Hsi Hgt) as [_ Hst].
    simpl in Hst. specialize (Hst (eq_sym Hname)). lia.
Qed.

(** C1 (as amended).  For every document built from valid input files, the
    ids stored at serialization are the numbers 1 to the number of
    sub-resources, one each, over playback and skin-change sub-resources
    together; a sub-resource with a smaller id never has a larger display
    name, it has a strictly smaller one when the two names differ, and of two
    sub-resources with the same display name the one created first has the
    smaller id. *)
Theorem C1_sub_resource_ids_ascending set_iter files t n e s :
  exists tree,
    build_tree set_iter (mkArgs (valid_inputs files) t n e s) = Ok tree
    /\ let subs := sub_resources (serialized tree) in
       List.length subs = List.length (flat_map file_subs files)
       /\ Permutation (map sr_i subs) (map Some (seq 1 (List.length subs)))
       /\ (forall x y i j,
              In x subs -> In y subs -> sr_i x = Some i -> sr_i y = Some j -> i < j ->
              String.leb (resource_name x) (resource_name y) = true
              /\ (resource_name x <> resource_name y ->
                  String.ltb (resource_name x) (resource_name y) = true))
       /\ (forall a b x y i j,
              nth_error subs a = Some x -> nth_error subs b = Some y ->
              sr_i x = Some i -> sr_i y = Some j ->
              resource_name x = resource_name y -> a < b -> i < j).
Proof.
  exists (built set_iter files t n e s). split; [apply build_tree_valid|].
  cbv zeta. split; [|split; [|split]].
  - rewrite (proj1 (serialized_sub_resources _)). simpl.
    apply sync_skin_tracks_length.
  - apply serialized_ids_contiguous.
  - intros x y i j Hx Hy Hi Hj Hlt.
    pose proof (serialized_ids_ascending _ x y i j Hx Hy Hi Hj Hlt) as Hle.
    split; [exact Hle|]. apply leb_neq_ltb. exact Hle.
  - apply serialized_ids_stable.
Qed.

(** C1, the claim as stated fails: the animation [skin__blue] and the skin
    [blue] of one file both have the display name [spine_x__skin__blue] and
    get the ids 1 and 2, so the names are not strictly ascending. *)
Lemma C1_equal_names_counterexample :
  exists tree x y,
    build_tree insertion_order same_name_args = Ok tree
    /\ In x (sub_resources (serialized tree))
    /\ In y (sub_resources (serialized tree))
    /\ sr_i x = Some 1 /\ sr_i y = Some 2
    /\ String.ltb (resource_name x) (resource_name y) = false.
Proof.
  eexists. eexists. eexists. split; [vm_compute; reflexivity|].
  split; [vm_compute; left; reflexivity|].
  split; [vm_compute; right; left; reflexivity|].
  vm_compute. auto.
Qed.

(** ** Completed builds *)

Lemma add_spine_children_ok_inv : forall inputs k self m,
  add_spine_children k inputs (Ok self) = Ok m ->
  exists files, inputs = valid_inputs files.
Proof.
  induction inputs as [|[p c] inputs IH]; intros k self m H.
  - exists []. reflexivity.
  - rewrite add_spine_children_cons in H. cbn [bind] in H.
    destruct c as [| |[[a|] [s|]]];
      try (unfold add_spine_child in H; simpl in H;
           rewrite add_spine_children_raise in H; discriminate).
    change (Json {| animations := Some a; skins := Some s |})
      with (valid_json a s) in H.
    rewrite add_spine_child_valid in H. apply IH in H. destruct H as [files ->].
    exists ((p, (a, s)) :: files). reflexivity.
Qed.

(** A build completes only on files that have both keys, and then returns
    the root described by [built]. *)
Lemma build_tree_ok_inv set_iter args tree :
  build_tree set_iter args = Ok tree ->
  exists files,
    arg_json args = valid_inputs files
    /\ tree = built set_iter files (arg_t args) (arg_n args) (arg_e args) (arg_s args).
Proof.
  intros H. assert (H' := H). unfold build_tree in H'.
  destruct (add_spine_children 0 (arg_json args) _) as [m|] eqn:E; [|discriminate].
  apply add_spine_children_ok_inv in E. destruct E as [files Hf].
  exists files. split; [exact Hf|].
  destruct args as [j t n e s]. simpl in *. subst j.
  rewrite build_tree_valid in H. congruence.
Qed.

Lemma with_ext_ids_length : forall exts k,
  List.length (with_ext_ids k exts) = List.length exts.
Proof. induction exts; intros; simpl; auto. Qed.

Lemma ext_blocks_length self :
  List.length (ext_blocks self) = List.length (ext_resources self).
Proof. unfold ext_blocks. rewrite length_map. apply with_ext_ids_length. Qed.

Lemma sub_blocks_length self :
  List.length (sub_blocks self) = List.length (sub_resources self).
Proof.
  unfold sub_blocks, with_sub_ids.
  rewrite !length_map, enumerate_length. apply sorted_sub_resources_length.
Qed.

(** C2.  For every completed build, the root's load steps are the number of
    its external resources plus the number of its sub-resources plus 1, the
    document starts with the header line carrying that number, and the
    numbers counted are the numbers of external-resource and sub-resource
    blocks the document renders. *)
Theorem C2_load_steps_in_header set_iter args tree :
  build_tree set_iter args = Ok tree ->
  let n := List.length (ext_resources tree) + List.length (sub_resources tree) + 1 in
  load_steps tree = Some n
  /\ n = List.length (ext_blocks tree) + List.length (sub_blocks tree) + 1
  /\ exists body, MainNode_str tree = gd_scene_header n ++ nl ++ nl ++ body.
Proof.
  intros H. apply build_tree_ok_inv in H. destruct H as (files & _ & ->).
  cbv zeta. split; [reflexivity|]. split.
  - rewrite ext_blocks_length, sub_blocks_length. reflexivity.
  - eexists. apply MainNode_str_layout; reflexivity.
Qed.

Lemma C2_load_steps_in_header_witness :
  build_tree insertion_order hero_args = Ok hero_tree
  /\ load_steps hero_tree = Some 6.
Proof.
  split.
  - vm_compute. reflexivity.
  - apply (C2_load_steps_in_header insertion_order hero_args hero_tree).
    vm_compute. reflexivity.
Defined.

(** ** The animation player and the serialized ids *)

Lemma bound_animations_in subs i a :
  In (i, a) (bound_animations subs)
  <-> exists k sr, i = k + 1 /\ nth_error (sorted_sub_resources subs) k = Some (a, sr).
Proof.
  unfold bound_animations. rewrite in_map_iff. split.
  - intros ([k [a' sr]] & Heq & Hin). inversion Heq; subst.
    apply in_enumerate in Hin. eauto.
  - intros (k & sr & -> & Hn). exists (k, (a, sr)). split; [reflexivity|].
    apply in_enumerate. exact Hn.
Qed.

Lemma bound_animations_addresses subs :
  Permutation (map snd (bound_animations subs)) (seq 0 (List.length subs)).
Proof.
  rewrite <- sorted_sub_resources_addresses.
  unfold bound_animations. rewrite map_map.
  rewrite <- (map_snd_combine_seq (sorted_sub_resources subs) 0) at 2.
  rewrite map_map. apply Permutation_refl'. apply map_ext.
  intros [i [a sr]]. reflexivity.
Qed.

Lemma bound_animations_blocks self :
  map (fun e => option_map SubResource_str
                  (nth_error (sub_resources (serialized self)) (snd e)))
      (bound_animations (sub_resources self))
  = map Some (sub_blocks self).
Proof.
  unfold bound_animations, sub_blocks, with_sub_ids. rewrite !map_map.
  apply map_ext_in. intros [i [a sr]] Hin. simpl.
  rewrite (proj2 (serialized_sub_resources self) i a sr Hin). reflexivity.
Qed.

(** C10.  In every completed build the last child is the animation player;
    each pair of an id and a sub-resource in its animation list names an
    object that holds that same id after serialization, every sub-resource
    is in the list once, and the sub-resource blocks of the document are
    these objects, rendered in the order of the list.  Nothing is assumed
    about the display names, so equal names are covered. *)
Theorem C10_player_ids_agree set_iter args tree :
  build_tree set_iter args = Ok tree ->
  exists nodes k anims,
    children tree = (nodes ++ [AnimationPlayerNode "animation" "." k anims])%list
    /\ animation_player tree = Some (List.length nodes)
    /\ (forall i a, In (i, a) anims ->
                    exists sr, nth_error (sub_resources (serialized tree)) a = Some sr
                               /\ sr_i sr = Some i)
    /\ Permutation (map snd anims) (seq 0 (List.length (sub_resources tree)))
    /\ map (fun e => option_map SubResource_str
                       (nth_error (sub_resources (serialized tree)) (snd e))) anims
       = map Some (sub_blocks tree).
Proof.
  intros H. apply build_tree_ok_inv in H. destruct H as (files & _ & ->).
  unfold built at 1. cbn [children animation_player].
  eexists. eexists. eexists. split; [reflexivity|]. split; [reflexivity|].
  split; [|split].
  - intros i a Hin. apply bound_animations_in in Hin.
    destruct Hin as (k & sr & -> & Hn).
    exists (set_sr_i (k + 1) sr). split; [|reflexivity].
    apply (proj2 (serialized_sub_resources _)). apply in_enumerate. exact Hn.
  - apply bound_animations_addresses.
  - apply bound_animations_blocks.
Qed.

Lemma C10_player_ids_agree_witness :
  build_tree insertion_order same_name_args = Ok same_name_tree
  /\ exists nodes k anims,
       children same_name_tree
       = (nodes ++ [AnimationPlayerNode "animation" "." k anims])%list
       /\ forall i a, In (i, a) anims ->
                      exists sr, nth_error (sub_resources (serialized same_name_tree)) a
                                 = Some sr
                                 /\ sr_i sr = Some i.
Proof.
  split.
  - vm_compute. reflexivity.
  - destruct (C10_player_ids_agree insertion_order same_name_args same_name_tree)
      as (nodes & k & anims & H & _ & Hid & _).
    + vm_compute. reflexivity.
    + exists nodes, k, anims. split; [exact H|exact Hid].
Defined.

(** ** Skin tracks *)

Lemma insertion_order_ok : set_order insertion_order.
Proof.
  intros l. split; [apply NoDup_nodup|]. intros x. apply nodup_In.
Qed.

Lemma reverse_order_ok : set_order reverse_order.
Proof.
  intros l. unfold reverse_order. split.
  - apply NoDup_rev, NoDup_nodup.
  - intros x. rewrite <- in_rev. apply nodup_In.
Qed.

Lemma combine_seq_snoc {A : Type} : forall (l : list A) (x : A) k,
  combine (seq k (List.length (l ++ [x]))) (l ++ [x])
  = (combine (seq k (List.length l)) l ++ [(k + List.length l, x)])%list.
Proof.
  induction l as [|y l IH]; intros x k; simpl.
  - rewrite Nat.add_0_r. reflexivity.
  - rewrite IH. simpl. rewrite Nat.add_succ_r. reflexivity.
Qed.




Lemma in_file_subs sr f :
  In sr (file_subs f) ->
  isinstance_SubResourceSpineSkin sr = true ->
  exists s, In s (snd (snd f))
            /\ sr = new_SubResourceSpineSkin s (spine_node_name (fst f)).
Proof.
  unfold file_subs. rewrite in_app_iff, !in_map_iff.
  intros [(a & <- & _)|(s & <- & Hs)] Hskin; [discriminate|eauto].
Qed.

Lemma skin_nodes_of_subs files x :
  In x (map node_name
            (filter isinstance_SubResourceSpineSkin (flat_map file_subs files)))
  <-> In x (skin_node_names files).
Proof.
  unfold skin_node_names. rewrite !in_map_iff. split.
  - intros (sr & <- & Hin). apply filter_In in Hin. destruct Hin as [Hin Hskin].
    apply in_flat_map in Hin. destruct Hin as (f & Hf & Hsr).
    destruct (in_file_subs _ _ Hsr Hskin) as (s & Hs & ->).
    exists f. split; [reflexivity|]. apply filter_In. split; [exact Hf|].
    unfold declares_skin. destruct (snd (snd f)); [destruct Hs|reflexivity].
  - intros (f & <- & Hin). apply filter_In in Hin. destruct Hin as [Hf Hd].
    unfold declares_skin in Hd. destruct (snd (snd f)) as [|s ss] eqn:E; [discriminate|].
    exists (new_SubResourceSpineSkin s (spine_node_name (fst f))).
    split; [reflexivity|]. apply filter_In. split; [|reflexivity].
    apply in_flat_map. exists f. split; [exact Hf|].
    unfold file_subs. rewrite E. apply in_or_app. right. left. reflexivity.
Qed.




(** ** Counting blocks *)

Lemma spine_children_all_spine files : forall k e,
  filter is_SpineNode (spine_children k e files) = spine_children k e files.
Proof. induction files; intros; simpl; [reflexivity|]. rewrite IHfiles. reflexivity. Qed.

Lemma built_spine_nodes set_iter files t n e s :
  filter is_SpineNode (children (built set_iter files t n e s))
  = spine_children 0 (List.length (script_exts s)) files.
Proof.
  simpl. rewrite !filter_app, spine_children_all_spine.
  destruct e; simpl; rewrite !app_nil_r; reflexivity.
Qed.

(** C4 (as amended).  The document built from [N] valid files has [N]
    source-node blocks and one external-resource block per file, so [N]
    external-resource blocks when no script is attached and [N + 1] when one
    is. *)
Theorem C4_block_counts set_iter files t n e s :
  exists tree,
    build_tree set_iter (mkArgs (valid_inputs files) t n e s) = Ok tree
    /\ List.length (filter is_SpineNode (children tree)) = List.length files
    /\ List.length (node_blocks tree) = List.length (children tree)
    /\ List.length (ext_blocks tree)
       = match s with
         | None => List.length files
         | Some _ => List.length files + 1
         end
    /\ MainNode_str tree
       = gd_scene_header (List.length (ext_blocks tree)
                          + List.length (sub_blocks tree) + 1)
         ++ nl ++ nl
         ++ strip (root_heading (resources_text tree) n t
                   ++ script_text s ++ join (node_blocks tree)).
Proof.
  exists (built set_iter files t n e s). split; [apply build_tree_valid|].
  split; [|split; [|split]].
  - rewrite built_spine_nodes. apply spine_children_length.
  - unfold node_blocks. apply length_map.
  - rewrite ext_blocks_length. simpl. rewrite length_app, length_map.
    destruct s; simpl; lia.
  - rewrite ext_blocks_length, sub_blocks_length.
    apply MainNode_str_layout; reflexivity.
Qed.

(** C4, the claim as stated fails: one valid file and no script give one
    external-resource block, not two. *)
Lemma C4_one_file_counterexample :
  build_tree insertion_order hero_args = Ok hero_tree
  /\ arg_s hero_args = None
  /\ List.length (arg_json hero_args) = 1
  /\ List.length (ext_blocks hero_tree) = 1
  /\ List.length (ext_blocks hero_tree) <> List.length (arg_json hero_args) + 1.
Proof.
  split; [vm_compute; reflexivity|].
  repeat split; try reflexivity. vm_compute. discriminate.
Qed.

(** ** The script *)

Lemma rstrip_app_keep : forall a b,
  rstrip b <> EmptyString -> rstrip (a ++ b) = a ++ rstrip b.
Proof.
  induction a as [|c a IH]; intros b Hb; simpl; [reflexivity|].
  rewrite (IH b Hb). destruct (a ++ rstrip b) eqn:E; [|reflexivity].
  destruct a; simpl in E; [contradiction|discriminate].
Qed.

Lemma lstrip_app_stop : forall a c b,
  isspace c = false -> exists pre, lstrip (a ++ String c b) = pre ++ String c b.
Proof.
  induction a as [|x a IH]; intros c b Hc; simpl.
  - rewrite Hc. exists EmptyString. reflexivity.
  - destruct (isspace x); [apply IH; exact Hc|].
    exists (String x a). reflexivity.
Qed.

Lemma AnimationPlayerNode_str_end heap nm p k anims :
  exists body, AnimationPlayerNode_str heap nm p k anims
               = body ++ "blend_times = [  ]" ++ nl.
Proof. unfold AnimationPlayerNode_str. eexists. reflexivity. Qed.

(** Stripping leaves the script line in place when an animation player is
    the last child rendered. *)
Lemma strip_keeps_script_line heading blocks player_body :
  exists pre post,
    strip (heading ++ script_line ++ blocks
           ++ player_body ++ "blend_times = [  ]" ++ nl)
    = pre ++ script_line ++ post.
Proof.
  unfold strip.
  replace (heading ++ script_line ++ blocks ++ player_body
           ++ "blend_times = [  ]" ++ nl)
    with ((heading ++ script_line ++ blocks ++ player_body)
          ++ ("blend_times = [  ]" ++ nl))
    by (rewrite !append_assoc; reflexivity).
  rewrite rstrip_app_keep by (vm_compute; discriminate).
  replace (rstrip ("blend_times = [  ]" ++ nl)) with "blend_times = [  ]"
    by (vm_compute; reflexivity).
  rewrite !append_assoc.
  destruct (lstrip_app_stop heading "s"%char
              ("cript = ExtResource( 1 )" ++ nl ++ nl ++ blocks ++ player_body
               ++ "blend_times = [  ]") eq_refl) as [pre Hpre].
  exists pre, (blocks ++ player_body ++ "blend_times = [  ]").
  exact Hpre.
Qed.

Lemma built_node_blocks_end set_iter files t n e s :
  exists blocks body,
    join (node_blocks (built set_iter files t n e s))
    = blocks ++ body ++ "blend_times = [  ]" ++ nl.
Proof.
  unfold node_blocks.
  set (heap := sub_resources (serialized (built set_iter files t n e s))).
  unfold built. cbn [children]. rewrite map_app, join_app.
  cbn [map join fold_right Node_str].
  match goal with
  | |- context [AnimationPlayerNode_str ?h ?a ?b ?c ?d] =>
      destruct (AnimationPlayerNode_str_end h a b c d) as [body Hbody];
      rewrite Hbody
  end.
  rewrite append_nil_r. eexists. eexists. reflexivity.
Qed.

Lemma with_ext_ids_types : forall exts k,
  map resource_type (with_ext_ids k exts) = map resource_type exts.
Proof. induction exts; intros; simpl; [reflexivity|]. rewrite IHexts. reflexivity. Qed.

(** C5.  In the document built from valid files with a script, the script is
    the first external resource, it holds id 1 after serialization and its
    block is the first external-resource block, and the root's own block is
    followed by the line [script = ExtResource( 1 )], which stays in the
    stripped text.  Without a script every external resource is a Spine
    resource and the children's blocks follow the root's block directly. *)
Theorem C5_script_is_first_resource set_iter files t n e :
  (forall p, exists tree,
      build_tree set_iter (mkArgs (valid_inputs files) t n e (Some p)) = Ok tree
      /\ hd_error (ext_resources tree) = Some (mkExtResource p "Script" None)
      /\ hd_error (ext_resources (serialized tree))
         = Some (mkExtResource p "Script" (Some 1))
      /\ hd_error (ext_blocks tree)
         = Some (ExtResource_str (mkExtResource p "Script" (Some 1)))
      /\ MainNode_str tree
         = gd_scene_header (List.length (ext_blocks tree)
                            + List.length (sub_blocks tree) + 1)
           ++ nl ++ nl
           ++ strip (root_heading (resources_text tree) n t
                     ++ script_line ++ join (node_blocks tree))
      /\ exists pre post, MainNode_str tree = pre ++ script_line ++ post)
  /\ (exists tree,
         build_tree set_iter (mkArgs (valid_inputs files) t n e None) = Ok tree
         /\ Forall (fun x => resource_type x = "SpineResource")
                   (ext_resources (serialized tree))
         /\ MainNode_str tree
            = gd_scene_header (List.length (ext_blocks tree)
                               + List.length (sub_blocks tree) + 1)
              ++ nl ++ nl
              ++ strip (root_heading (resources_text tree) n t
                        ++ join (node_blocks tree))).
Proof.
  split.
  - intros p. exists (built set_iter files t n e (Some p)).
    split; [apply build_tree_valid|].
    assert (Hlay := MainNode_str_layout (built set_iter files t n e (Some p)) _
                      eq_refl eq_refl).
    cbn [script name node_type built script_text] in Hlay.
    split; [reflexivity|]. split; [rewrite serialized_ext_resources; reflexivity|].
    split; [reflexivity|]. split.
    + rewrite ext_blocks_length, sub_blocks_length. exact Hlay.
    + rewrite Hlay.
      destruct (built_node_blocks_end set_iter files t n e (Some p))
        as (blocks & body & Hb).
      rewrite Hb.
      destruct (strip_keeps_script_line
                  (root_heading (resources_text (built set_iter files t n e (Some p)))
                                n t) blocks body) as (pre & post & Hs).
      rewrite Hs. clear Hs Hb Hlay.
      match goal with
      | |- exists a b, ?h ++ nl ++ nl ++ pre ++ script_line ++ post = _ =>
          exists (h ++ nl ++ nl ++ pre), post; generalize h
      end.
      generalize script_line. intros sl h. rewrite !append_assoc. reflexivity.
  - exists (built set_iter files t n e None).
    split; [apply build_tree_valid|]. split.
    + rewrite serialized_ext_resources. apply Forall_forall. intros x Hx.
      apply (in_map resource_type) in Hx. rewrite with_ext_ids_types in Hx.
      simpl in Hx. rewrite map_map in Hx. apply in_map_iff in Hx.
      destruct Hx as (f & <- & _). reflexivity.
    + rewrite ext_blocks_length, sub_blocks_length.
      apply (MainNode_str_layout (built set_iter files t n e None)); reflexivity.
Qed.

(** ** The order of iteration over the set of node names *)

(** C6, the code at the failing input: with three files that declare a skin,
    two orders in which the set of node names can be iterated give two
    different documents. *)
Theorem C6_set_order_changes_document :
  set_order insertion_order
  /\ set_order reverse_order
  /\ exists t1 t2,
       build_tree insertion_order three_args = Ok t1
       /\ build_tree reverse_order three_args = Ok t2
       /\ MainNode_str t1 <> MainNode_str t2.
Proof.
  split; [exact insertion_order_ok|]. split; [exact reverse_order_ok|].
  exists (built insertion_order three_files "Node2D" "player" None None).
  exists (built reverse_order three_files "Node2D" "player" None None).
  split; [apply build_tree_valid|]. split; [apply build_tree_valid|].
  apply String.eqb_neq. vm_compute. reflexivity.
Qed.

(** ** Failing builds *)

Lemma add_spine_child_missing self p d i :
  animations d = None \/ skins d = None ->
  add_spine_child self p (Json d) i = Raise (KeyError (missing_key d)).
Proof.
  unfold add_spine_child, missing_key.
  destruct d as [[a|] [s|]]; simpl; intros [H|H]; try discriminate; reflexivity.
Qed.

Lemma add_spine_children_bad p d :
  animations d = None \/ skins d = None ->
  forall inputs k r,
    In (p, Json d) inputs -> exists e, add_spine_children k inputs r = Raise e.
Proof.
  intros Hd. induction inputs as [|[p0 c0] inputs IH]; intros k r Hin; [destruct Hin|].
  rewrite add_spine_children_cons. destruct Hin as [Heq|Hin]; [|apply IH; exact Hin].
  inversion Heq; subst. destruct r as [self|e]; cbn [bind].
  - rewrite add_spine_child_missing by exact Hd.
    rewrite add_spine_children_raise. eauto.
  - rewrite add_spine_children_raise. eauto.
Qed.

Lemma add_spine_children_app : forall l1 l2 k r,
  add_spine_children k (l1 ++ l2) r
  = add_spine_children (k + List.length l1) l2 (add_spine_children k l1 r).
Proof.
  induction l1 as [|[p c] l1 IH]; intros l2 k r.
  - simpl. rewrite Nat.add_0_r. reflexivity.
  - change (((p, c) :: l1) ++ l2)%list with ((p, c) :: (l1 ++ l2))%list.
    rewrite !add_spine_children_cons, IH. simpl List.length.
    rewrite Nat.add_succ_r. reflexivity.
Qed.

(** C7.  When an input file lacks the [animations] key or the [skins] key,
    [build_tree] raises and returns no root, and [main] writes nothing to
    standard output; when the files before it are valid the exception is the
    [KeyError] of the missing key. *)
Theorem C7_missing_key_aborts set_iter args p d :
  In (p, Json d) (arg_json args) ->
  animations d = None \/ skins d = None ->
  (exists e, build_tree set_iter args = Raise e
             /\ main set_iter true args = (EmptyString, Raise e))
  /\ (forall pre post,
         arg_json args = (valid_inputs pre ++ (p, Json d) :: post)%list ->
         build_tree set_iter args = Raise (KeyError (missing_key d))).
Proof.
  intros Hin Hd. split.
  - destruct (add_spine_children_bad p d Hd (arg_json args) 0
                (Ok (MainNode_init (arg_n args) (arg_t args) (arg_s args))) Hin)
      as [e He].
    exists e. assert (Hb : build_tree set_iter args = Raise e)
      by (unfold build_tree; rewrite He; reflexivity).
    split; [exact Hb|]. unfold main. rewrite Hb. reflexivity.
  - intros pre post Heq. unfold build_tree. rewrite Heq.
    rewrite add_spine_children_app, add_spine_children_valid.
    rewrite add_spine_children_cons. cbn [bind].
    rewrite add_spine_child_missing by exact Hd.
    rewrite add_spine_children_raise. reflexivity.
Qed.

Lemma C7_missing_key_aborts_witness :
  In ("broken.json", Json (mkSpineJson None (Some ["default"])))
     (arg_json no_animations_args)
  /\ build_tree insertion_order no_animations_args = Raise (KeyError "animations")
  /\ exists e, main insertion_order true no_animations_args = (EmptyString, Raise e).
Proof.
  assert (Hin : In ("broken.json", Json (mkSpineJson None (Some ["default"])))
                   (arg_json no_animations_args))
    by (simpl; right; left; reflexivity).
  split; [exact Hin|].
  destruct (C7_missing_key_aborts insertion_order no_animations_args
              "broken.json" (mkSpineJson None (Some ["default"]))
              Hin (or_introl eq_refl)) as [(e & _ & Hm) Hk].
  split.
  - apply (Hk hero_files []). reflexivity.
  - exists e. exact Hm.
Defined.

(** ** Attaching the animation player *)

(** C8 (as amended).  Attaching the animation player fails, with an
    assertion error, on a node that has a parent.  On a root a second call
    succeeds like the first: it appends another animation player, whose
    index is the number of children then present, and makes it the player
    of the root. *)
Theorem C8_second_player_is_appended nm ty s ls exts subs ch ap :
  (exists r1 r2,
      add_animation_player (mkMainNode nm ty None s ls exts subs ch ap) = Ok r1
      /\ add_animation_player r1 = Ok r2
      /\ children r2
         = (ch ++ [AnimationPlayerNode "animation" "." (List.length ch) [];
                   AnimationPlayerNode "animation" "." (S (List.length ch)) []])%list
      /\ animation_player r2 = Some (S (List.length ch)))
  /\ (forall q,
         add_animation_player (mkMainNode nm ty (Some q) s ls exts subs ch ap)
         = Raise AssertionError).
Proof.
  split; [|reflexivity].
  eexists. eexists. split; [reflexivity|]. split; [reflexivity|].
  simpl. rewrite <- app_assoc, length_app, Nat.add_1_r. split; reflexivity.
Qed.

(** C8, the claim as stated fails: on a built root, which has its player, a
    further call raises nothing and leaves two animation players. *)
Lemma C8_second_call_counterexample :
  exists r,
    add_animation_player hero_tree = Ok r
    /\ List.length (filter is_AnimationPlayerNode (children hero_tree)) = 1
    /\ List.length (filter is_AnimationPlayerNode (children r)) = 2.
Proof. eexists. split; [reflexivity|]. split; reflexivity. Qed.

(** ** Node names *)

Lemma replace_dots : forall s, replace "." "_" s = dots_to_underscores s.
Proof.
  unfold replace, dots_to_underscores.
  induction s as [|c s IH]; [reflexivity|].
  cbn [replace_from map_chars String.prefix String.length Nat.sub].
  destruct (ascii_dec "."%char c) as [<-|Hn].
  - assert (Hp : String.prefix EmptyString s = true) by (destruct s; reflexivity).
    rewrite Hp. simpl. rewrite IH. reflexivity.
  - assert (E : Ascii.eqb c "."%char = false) by (apply Ascii.eqb_neq; congruence).
    rewrite E. rewrite IH. reflexivity.
Qed.

Lemma spine_children_names files : forall k e,
  map Node_name (spine_children k e files)
  = map (fun f => Some (spine_node_name (fst f))) files.
Proof. induction files; intros; simpl; [reflexivity|]. rewrite IHfiles. reflexivity. Qed.

(** C9 (as amended).  In the document built from valid files the source
    nodes are named, file by file, [spine_] followed by the basename with
    every occurrence of [.json] removed and then every dot replaced by an
    underscore. *)
Theorem C9_spine_node_names set_iter files t n e s :
  exists tree,
    build_tree set_iter (mkArgs (valid_inputs files) t n e s) = Ok tree
    /\ map Node_name (filter is_SpineNode (children tree))
       = map (fun f => Some ("spine_"
                             ++ dots_to_underscores
                                  (replace ".json" EmptyString (basename (fst f)))))
             files.
Proof.
  exists (built set_iter files t n e s). split; [apply build_tree_valid|].
  rewrite built_spine_nodes, spine_children_names. apply map_ext.
  intros f. unfold spine_node_name. rewrite replace_dots. reflexivity.
Qed.

(** C9, the claim as stated fails: for [hero.json] the node is named
    [spine_hero], while [spine_] followed by the basename with dots replaced
    is [spine_hero_json]; and for [a.json.b.json] the name [spine_a_b] is
    not [spine_] followed by [a.json.b] with dots replaced either. *)
Lemma C9_json_removed_counterexample :
  spine_node_name "hero.json" = "spine_hero"
  /\ spec_node_name "hero.json" = "spine_hero_json"
  /\ spine_node_name "hero.json" <> spec_node_name "hero.json"
  /\ spine_node_name "dir/a.json.b.json" = "spine_a_b"
  /\ spine_node_name "dir/a.json.b.json"
     <> "spine_" ++ dots_to_underscores "a.json.b".
Proof.
  repeat split; try reflexivity; vm_compute; discriminate.
Qed.

(* ================================================================== *)
(** * Further properties of the build *)

(** ** Which builds complete *)

Lemma add_spine_child_invalid self p c i :
  valid_content c = false ->
  add_spine_child self p c i = Raise (content_error c).
Proof.
  destruct c as [| |d]; intros H; try reflexivity.
  apply add_spine_child_missing. simpl in H.
  destruct (animations d); [|auto]. destruct (skins d); [discriminate|auto].
Qed.


(** X1.  The first input file that cannot be opened, is not JSON or lacks a
    key decides how the build ends: [build_tree] raises the exception of that
    file, whatever follows it, and [main] writes nothing. *)
Theorem X1_first_invalid_file_decides set_iter pre p c post t n e s :
  valid_content c = false ->
  build_tree set_iter (mkArgs (valid_inputs pre ++ (p, c) :: post) t n e s)
  = Raise (content_error c)
  /\ main set_iter true (mkArgs (valid_inputs pre ++ (p, c) :: post) t n e s)
     = (EmptyString, Raise (content_error c)).
Proof.
  intros Hc.
  assert (Hb : build_tree set_iter
                 (mkArgs (valid_inputs pre ++ (p, c) :: post) t n e s)
               = Raise (content_error c)).
  { unfold build_tree. cbn [arg_json arg_n arg_t arg_s arg_e].
    rewrite add_spine_children_app, add_spine_children_valid.
    rewrite add_spine_children_cons. cbn [bind].
    rewrite add_spine_child_invalid by exact Hc.
    rewrite add_spine_children_raise. reflexivity. }
  split; [exact Hb|]. unfold main. rewrite Hb. reflexivity.
Qed.

Lemma X1_first_invalid_file_decides_witness :
  valid_content Unreadable = false
  /\ build_tree insertion_order unreadable_args = Raise OSError.
Proof.
  split; [reflexivity|].
  apply (X1_first_invalid_file_decides insertion_order hero_files
           "gone.json" Unreadable [("text.json", NotJson)]
           "Node2D" "player" None None).
  reflexivity.
Defined.


(** ** What a completed build holds *)

Lemma file_subs_length f : List.length (file_subs f) = file_sub_count f.
Proof. unfold file_subs, file_sub_count. rewrite length_app, !length_map. reflexivity. Qed.

Lemma flat_map_length {A B : Type} (g : A -> list B) : forall l,
  List.length (flat_map g l) = list_sum (map (fun x => List.length (g x)) l).
Proof.
  induction l as [|x l IH]; simpl; [reflexivity|].
  rewrite length_app, IH. reflexivity.
Qed.

Lemma file_subs_skins f :
  List.length (filter isinstance_SubResourceSpineSkin (file_subs f))
  = List.length (snd (snd f)).
Proof.
  unfold file_subs. rewrite filter_app, length_app.
  assert (H1 : forall l node,
             filter isinstance_SubResourceSpineSkin
                    (map (fun a => new_SubResourceSpinePlay a node) l) = []).
  { induction l; intros; simpl; auto. }
  assert (H2 : forall l node,
             List.length (filter isinstance_SubResourceSpineSkin
                                 (map (fun a => new_SubResourceSpineSkin a node) l))
             = List.length l).
  { induction l; intros; simpl; auto. }
  rewrite H1, H2. reflexivity.
Qed.

(** ** What synchronizing the skins changes *)

Lemma numbered_tracks_snoc base : forall nodes k node,
  numbered_tracks k base (nodes ++ [node])
  = (numbered_tracks k base nodes
     ++ [track_text (k + List.length nodes) node base])%list.
Proof.
  unfold numbered_tracks. intros nodes k node.
  rewrite combine_seq_snoc, map_app. reflexivity.
Qed.

Lemma numbered_tracks_length k base nodes :
  List.length (numbered_tracks k base nodes) = List.length nodes.
Proof.
  unfold numbered_tracks. rewrite length_map, length_combine, length_seq.
  apply Nat.min_id.
Qed.

(** The inner loop on any sub-resource: the fields stay, and the tracks get
    one more for each node other than [node_name], numbered onwards. *)
Lemma add_other_tracks_appends : forall nodes sr added,
  add_other_tracks nodes
    (mkSubResource (sr_class sr) (base_resource_name sr) (node_name sr) (sr_i sr)
       (resource_name sr)
       (tracks sr ++ numbered_tracks (List.length (tracks sr))
                                     (base_resource_name sr) added))
  = mkSubResource (sr_class sr) (base_resource_name sr) (node_name sr) (sr_i sr)
      (resource_name sr)
      (tracks sr
       ++ numbered_tracks (List.length (tracks sr)) (base_resource_name sr)
            (added ++ filter (fun x => negb (String.eqb (node_name sr) x)) nodes)).
Proof.
  unfold add_other_tracks.
  induction nodes as [|x nodes IH]; intros sr added; simpl.
  - rewrite app_nil_r. reflexivity.
  - destruct (String.eqb (node_name sr) x) eqn:E; simpl.
    + apply IH.
    + unfold add_track. cbn [sr_class base_resource_name node_name sr_i
                             resource_name tracks].
      rewrite <- app_assoc, length_app, numbered_tracks_length.
      rewrite <- numbered_tracks_snoc, IH, <- app_assoc. reflexivity.
Qed.

Lemma add_other_tracks_any nodes sr :
  add_other_tracks nodes sr
  = mkSubResource (sr_class sr) (base_resource_name sr) (node_name sr) (sr_i sr)
      (resource_name sr)
      (tracks sr
       ++ numbered_tracks (List.length (tracks sr)) (base_resource_name sr)
            (filter (fun x => negb (String.eqb (node_name sr) x)) nodes)).
Proof.
  pose proof (add_other_tracks_appends nodes sr []) as H.
  cbn [numbered_tracks List.length seq combine map app] in H.
  rewrite app_nil_r in H. destruct sr; exact H.
Qed.

(** X3.  Synchronizing the skins keeps the number and the order of the
    sub-resources and every field of each but the tracks; the tracks a
    sub-resource had stay as they were, and only tracks for other nodes are
    added behind them, numbered onwards; a playback animation gets none. *)
Theorem X3_sync_only_appends_tracks set_iter subs :
  List.length (sync_skin_tracks set_iter subs) = List.length subs
  /\ forall a sr,
      nth_error subs a = Some sr ->
      exists added,
        nth_error (sync_skin_tracks set_iter subs) a
        = Some (mkSubResource (sr_class sr) (base_resource_name sr) (node_name sr)
                  (sr_i sr) (resource_name sr)
                  (tracks sr
                   ++ numbered_tracks (List.length (tracks sr))
                                      (base_resource_name sr) added))
        /\ ~ In (node_name sr) added
        /\ (isinstance_SubResourceSpineSkin sr = false -> added = []).
Proof.
  split; [apply sync_skin_tracks_length|].
  intros a sr Ha. unfold sync_skin_tracks.
  rewrite nth_error_map, Ha. cbn [option_map].
  destruct (isinstance_SubResourceSpineSkin sr) eqn:E.
  - eexists. split; [rewrite add_other_tracks_any; reflexivity|]. split.
    + rewrite filter_In, String.eqb_refl. intros [_ H]. discriminate.
    + discriminate.
  - exists []. split; [|split; auto].
    cbn [numbered_tracks List.length seq combine map]. rewrite app_nil_r.
    destruct sr; reflexivity.
Qed.

Lemma filter_map_length {A : Type} (p : A -> bool) (g : A -> A) :
  (forall x, p (g x) = p x) ->
  forall l, List.length (filter p (map g l)) = List.length (filter p l).
Proof.
  intros H. induction l as [|x l IH]; simpl; [reflexivity|].
  rewrite H. destruct (p x); simpl; congruence.
Qed.

Lemma sync_skin_tracks_skins set_iter subs :
  List.length (filter isinstance_SubResourceSpineSkin (sync_skin_tracks set_iter subs))
  = List.length (filter isinstance_SubResourceSpineSkin subs).
Proof.
  unfold sync_skin_tracks. apply filter_map_length. intros sr.
  destruct (isinstance_SubResourceSpineSkin sr) eqn:E; [|exact E].
  rewrite add_other_tracks_any. exact E.
Qed.

Lemma flat_map_filter_length {A B : Type} (p : B -> bool) (g : A -> list B) :
  forall l, List.length (filter p (flat_map g l))
            = list_sum (map (fun x => List.length (filter p (g x))) l).
Proof.
  induction l as [|x l IH]; simpl; [reflexivity|].
  rewrite filter_app, length_app, IH. reflexivity.
Qed.

(** X4.  The document built from valid files has one sub-resource for each
    animation name and each skin name of each file, so none for a file whose
    two mappings are empty; its load steps are the script, if any, plus the
    files plus these plus 1, and its children are the files' nodes, the
    extra node, if any, and the animation player. *)
Theorem X4_sizes_from_the_input set_iter files t n e s :
  exists tree,
    build_tree set_iter (mkArgs (valid_inputs files) t n e s) = Ok tree
    /\ List.length (sub_resources tree) = list_sum (map file_sub_count files)
    /\ List.length (filter isinstance_SubResourceSpineSkin (sub_resources tree))
       = list_sum (map (fun f => List.length (snd (snd f))) files)
    /\ load_steps tree
       = Some (script_count s + List.length files
               + list_sum (map file_sub_count files) + 1)
    /\ List.length (children tree)
       = List.length files + List.length (extra_children (List.length files) e) + 1.
Proof.
  exists (built set_iter files t n e s). split; [apply build_tree_valid|].
  assert (Hsubs : List.length (sync_skin_tracks set_iter (flat_map file_subs files))
                  = list_sum (map file_sub_count files)).
  { rewrite sync_skin_tracks_length, flat_map_length. f_equal.
    apply map_ext. intros f. apply file_subs_length. }
  cbn [built sub_resources load_steps children]. repeat split.
  - exact Hsubs.
  - rewrite sync_skin_tracks_skins, flat_map_filter_length. f_equal.
    apply map_ext. intros f. apply file_subs_skins.
  - rewrite Hsubs, length_app, length_map. destruct s; simpl; reflexivity.
  - rewrite !length_app, spine_children_length. reflexivity.
Qed.

(** ** The children and what they refer to *)

Lemma spine_children_nth : forall files k0 e0 j,
  nth_error (spine_children k0 e0 files) j
  = option_map (fun f => SpineNode (spine_node_name (fst f)) "." (k0 + j)
                                   (Some (S (e0 + j))))
               (nth_error files j).
Proof.
  induction files as [|f files IH]; intros k0 e0 [|j]; simpl; try reflexivity.
  - rewrite !Nat.add_0_r. reflexivity.
  - rewrite IH. rewrite !Nat.add_succ_r. reflexivity.
Qed.

(** X5.  In the document built from valid files every child with an index
    has its position among the children as its index: the node of the k-th
    file is the k-th child, the extra node, if any, follows the files' nodes
    and its text is formatted with that position, and the animation player
    is the last child. *)
Theorem X5_child_index_is_position set_iter files t n e s :
  exists tree,
    build_tree set_iter (mkArgs (valid_inputs files) t n e s) = Ok tree
    /\ forall k c,
        nth_error (children tree) k = Some c ->
        match c with
        | SpineNode nm p i _ =>
            i = k /\ p = "."
            /\ exists f, nth_error files k = Some f /\ nm = spine_node_name (fst f)
        | ExtraNode data =>
            k = List.length files /\ exists extra, e = Some extra /\ data = extra k
        | AnimationPlayerNode nm p i _ =>
            i = k /\ p = "." /\ nm = "animation"
            /\ S k = List.length (children tree)
        end.
Proof.
  exists (built set_iter files t n e s). split; [apply build_tree_valid|].
  intros k c. cbn [built children].
  set (spine := spine_children 0 (List.length (script_exts s)) files).
  assert (Hlen : List.length spine = List.length files)
    by apply spine_children_length.
  rewrite !length_app, Hlen.
  rewrite nth_error_app, length_app, Hlen.
  destruct (Nat.ltb_spec k (List.length files
                            + List.length (extra_children (List.length files) e)))
    as [Hk|Hk].
  - rewrite nth_error_app, Hlen.
    destruct (Nat.ltb_spec k (List.length files)) as [Hk'|Hk'].
    + subst spine. rewrite spine_children_nth.
      destruct (nth_error files k) as [f|] eqn:Ef; [|discriminate].
      intros H. inversion H; subst. simpl. eauto.
    + destruct e as [extra|]; simpl in Hk; [|lia].
      replace (k - List.length files) with 0 by lia. simpl.
      intros H. inversion H; subst.
      assert (k = List.length files) by lia. subst k. eauto.
  - destruct (k - _) as [|m] eqn:Ek; simpl; [|destruct m; discriminate].
    intros H. inversion H; subst. simpl. repeat split; lia.
Qed.

Lemma with_ext_ids_nth : forall exts k m,
  nth_error (with_ext_ids k exts) m
  = option_map (set_ext_i (k + m + 1)) (nth_error exts m).
Proof.
  induction exts as [|x exts IH]; intros k [|m];
    cbn [with_ext_ids nth_error option_map]; try reflexivity.
  - rewrite Nat.add_0_r. reflexivity.
  - rewrite IH. replace (S k + m + 1) with (k + S m + 1) by lia. reflexivity.
Qed.

(** X6.  Serializing any root gives its external resources the ids 1, 2, ...
    in the order they were registered, and changes neither their number nor
    their paths and types. *)
Theorem X6_ext_ids_follow_registration self :
  List.length (ext_resources (serialized self)) = List.length (ext_resources self)
  /\ forall m x,
      nth_error (ext_resources self) m = Some x ->
      nth_error (ext_resources (serialized self)) m
      = Some (mkExtResource (resource_path x) (resource_type x) (Some (m + 1))).
Proof.
  rewrite serialized_ext_resources. split; [apply with_ext_ids_length|].
  intros m x H. rewrite with_ext_ids_nth, H. reflexivity.
Qed.

(** X7.  In the document built from valid files the node of each file
    refers, by the id it got when it was created, to the external resource
    that holds that file's path after serialization. *)
Theorem X7_spine_node_refers_to_its_file set_iter files t n e s :
  exists tree,
    build_tree set_iter (mkArgs (valid_inputs files) t n e s) = Ok tree
    /\ forall k f,
        nth_error files k = Some f ->
        exists i,
          nth_error (children tree) k
          = Some (SpineNode (spine_node_name (fst f)) "." k (Some (S i)))
          /\ nth_error (ext_resources (serialized tree)) i
             = Some (mkExtResource (fst f) "SpineResource" (Some (S i))).
Proof.
  exists (built set_iter files t n e s). split; [apply build_tree_valid|].
  intros k f Hf. exists (List.length (script_exts s) + k).
  assert (Hk : k < List.length files) by (apply nth_error_Some; congruence).
  split.
  - cbn [built children]. rewrite <- app_assoc.
    rewrite nth_error_app1 by (rewrite spine_children_length; exact Hk).
    rewrite spine_children_nth, Hf. reflexivity.
  - rewrite serialized_ext_resources, with_ext_ids_nth. cbn [built ext_resources].
    rewrite nth_error_app2 by lia.
    replace (List.length (script_exts s) + k - List.length (script_exts s))
      with k by lia.
    rewrite nth_error_map, Hf. simpl. rewrite Nat.add_1_r. reflexivity.
Qed.

(** ** The animation list of the player *)

Lemma nth_error_combine_seq {A : Type} : forall (l : list A) k p,
  nth_error (combine (seq k (List.length l)) l) p
  = option_map (fun x => (k + p, x)) (nth_error l p).
Proof.
  induction l as [|x l IH]; intros k [|p]; simpl; try reflexivity.
  - rewrite Nat.add_0_r. reflexivity.
  - rewrite IH, Nat.add_succ_r. reflexivity.
Qed.

Lemma nth_error_enumerate {A : Type} (l : list A) p :
  nth_error (enumerate l) p = option_map (fun x => (p, x)) (nth_error l p).
Proof. apply nth_error_combine_seq. Qed.

Lemma bound_animations_nth subs p i a :
  nth_error (bound_animations subs) p = Some (i, a) ->
  i = p + 1
  /\ exists sr, nth_error (sorted_sub_resources subs) p = Some (a, sr)
                /\ nth_error subs a = Some sr.
Proof.
  unfold bound_animations. rewrite nth_error_map, nth_error_enumerate.
  destruct (nth_error (sorted_sub_resources subs) p) as [[a' sr]|] eqn:E;
    [|discriminate].
  simpl. intros H. inversion H; subst. split; [reflexivity|].
  exists sr. split; [reflexivity|].
  apply in_sorted_sub_resources. eapply nth_error_In. exact E.
Qed.

Lemma bound_animations_ids subs :
  map fst (bound_animations subs) = seq 1 (List.length subs).
Proof.
  unfold bound_animations. rewrite map_map.
  rewrite <- sorted_sub_resources_length, <- seq_shift.
  rewrite <- (map_fst_combine_seq (sorted_sub_resources subs) 0), map_map.
  apply map_ext. intros [i [a sr]]. simpl. apply Nat.add_1_r.
Qed.

(** X8.  In the document built from valid files the animation player lists
    the ids 1, 2, ... in this order, one entry for each sub-resource, and
    the display names of the sub-resources along the list never descend. *)
Theorem X8_player_list_in_id_order set_iter files t n e s :
  exists tree nodes k anims,
    build_tree set_iter (mkArgs (valid_inputs files) t n e s) = Ok tree
    /\ children tree = (nodes ++ [AnimationPlayerNode "animation" "." k anims])%list
    /\ map fst anims = seq 1 (List.length (sub_resources tree))
    /\ forall p q i a j b x y,
        nth_error anims p = Some (i, a) -> nth_error anims q = Some (j, b) ->
        nth_error (sub_resources tree) a = Some x ->
        nth_error (sub_resources tree) b = Some y ->
        p < q ->
        String.leb (resource_name x) (resource_name y) = true.
Proof.
  exists (built set_iter files t n e s).
  unfold built at 2 3 4 5. cbn [children sub_resources].
  eexists. eexists. eexists. split; [apply build_tree_valid|].
  split; [reflexivity|]. split; [apply bound_animations_ids|].
  intros p q i a j b x y Hp Hq Hx Hy Hlt.
  apply bound_animations_nth in Hp, Hq.
  destruct Hp as (_ & sx & Hsp & Hx'). destruct Hq as (_ & sy & Hsq & Hy').
  rewrite Hx in Hx'. rewrite Hy in Hy'. inversion Hx'; inversion Hy'; subst.
  exact (StronglySorted_nth_error (key_le by_resource_name) _
           (sorted_sorted by_resource_name _) p q (a, sx) (b, sy) Hsp Hsq Hlt).
Qed.

(** ** Serializing twice *)

Lemma set_sr_i_twice i k sr : set_sr_i i (set_sr_i k sr) = set_sr_i i sr.
Proof. reflexivity. Qed.

Lemma insert_by_same_object x y : forall l l',
  same_object x y -> Forall2 same_object l l' ->
  Forall2 same_object (insert_by by_resource_name x l)
                      (insert_by by_resource_name y l').
Proof.
  intros l l' Hxy H. induction H as [|u v l l' Huv H IH]; simpl.
  - constructor; [exact Hxy|constructor].
  - assert (Hk : forall p q, same_object p q
                             -> by_resource_name p = by_resource_name q).
    { intros p q [_ [k Hq]]. unfold by_resource_name. rewrite Hq. reflexivity. }
    rewrite <- (Hk x y Hxy), <- (Hk u v Huv).
    destruct (String.leb (by_resource_name x) (by_resource_name u)).
    + constructor; [exact Hxy|]. constructor; [exact Huv|exact H].
    + constructor; [exact Huv|exact IH].
Qed.

Lemma sorted_same_object : forall l l',
  Forall2 same_object l l' ->
  Forall2 same_object (sorted by_resource_name l) (sorted by_resource_name l').
Proof.
  induction 1; simpl; [constructor|]. apply insert_by_same_object; assumption.
Qed.

Lemma combine_seq_same_object : forall (l l' : list SubResource) k,
  Forall2 (fun x y => exists i, y = set_sr_i i x) l l' ->
  Forall2 same_object (combine (seq k (List.length l)) l)
                      (combine (seq k (List.length l')) l').
Proof.
  intros l l' k H. revert k. induction H as [|x y l l' Hxy H IH]; intros k; simpl.
  - constructor.
  - constructor; [split; [reflexivity|exact Hxy]|apply IH].
Qed.

Lemma with_sub_ids_same_object_from : forall s s',
  Forall2 same_object s s' ->
  forall m,
    map (fun '(i, (_, sr)) => set_sr_i (i + 1) sr) (combine (seq m (List.length s')) s')
    = map (fun '(i, (_, sr)) => set_sr_i (i + 1) sr) (combine (seq m (List.length s)) s).
Proof.
  induction 1 as [|[a x] [b y] s s' [_ [k Hk]] H IH]; intros m; simpl.
  - reflexivity.
  - simpl in Hk. subst y. rewrite IH. reflexivity.
Qed.

Lemma with_sub_ids_same_object s s' :
  Forall2 same_object s s' -> with_sub_ids s' = with_sub_ids s.
Proof. intros H. apply (with_sub_ids_same_object_from s s' H 0). Qed.

Lemma Forall2_nth_error {A B : Type} (R : A -> B -> Prop) : forall l l',
  List.length l = List.length l' ->
  (forall a x y, nth_error l a = Some x -> nth_error l' a = Some y -> R x y) ->
  Forall2 R l l'.
Proof.
  induction l as [|x l IH]; intros [|y l'] Hlen H; simpl in Hlen; try discriminate.
  - constructor.
  - constructor; [apply (H 0); reflexivity|].
    apply IH; [lia|]. intros a. apply (H (S a)).
Qed.

Lemma Forall2_nth_error_l {A B : Type} (R : A -> B -> Prop) : forall l l',
  Forall2 R l l' ->
  forall a y, nth_error l' a = Some y -> exists x, nth_error l a = Some x /\ R x y.
Proof.
  induction 1 as [|x y l l' Hxy H IH]; intros [|a] z Ha; simpl in *; try discriminate.
  - inversion Ha; subst. eauto.
  - eauto.
Qed.

(** Running the second loop again, on what it left, changes nothing. *)
Lemma sub_loop_again subs out h' out1 :
  sub_loop subs out = (h', out1) -> sub_loop h' out = (h', out1).
Proof.
  intros H.
  destruct (sub_loop_spec subs out) as (h1 & Hs & Hlen & Hin).
  rewrite Hs in H. inversion H; subst h1 out1. clear H.
  assert (Hobj : Forall2 (fun x y => exists i, y = set_sr_i i x) subs h').
  { apply Forall2_nth_error; [symmetry; exact Hlen|].
    intros a x y Hx Hy.
    pose proof (proj2 (in_sorted_sub_resources _ _ _) Hx) as Hi.
    apply In_nth_error in Hi. destruct Hi as [i Hi].
    apply in_enumerate in Hi. apply Hin in Hi. rewrite Hy in Hi.
    inversion Hi. eauto. }
  assert (Hsorted : Forall2 same_object (sorted_sub_resources subs)
                            (sorted_sub_resources h')).
  { apply sorted_same_object. apply combine_seq_same_object. exact Hobj. }
  destruct (sub_loop_spec h' out) as (h2 & Hs2 & Hlen2 & Hin2).
  rewrite Hs2, (with_sub_ids_same_object _ _ Hsorted). f_equal.
  apply nth_error_ext. intros a.
  destruct (nth_error h' a) as [y|] eqn:Ey.
  - pose proof (proj2 (in_sorted_sub_resources _ _ _) Ey) as Hi.
    apply In_nth_error in Hi. destruct Hi as [i Hi].
    rewrite (Hin2 i a y) by (apply in_enumerate; exact Hi).
    destruct (Forall2_nth_error_l _ _ _ Hsorted i (a, y) Hi)
      as ([a' x] & Hx & Ha & k & Hk).
    simpl in Ha, Hk. subst a' y.
    rewrite (Hin i a x) in Ey by (apply in_enumerate; exact Hx).
    inversion Ey. reflexivity.
  - apply nth_error_None in Ey. apply nth_error_None. lia.
Qed.

Lemma with_ext_ids_again : forall exts k,
  with_ext_ids k (with_ext_ids k exts) = with_ext_ids k exts.
Proof. induction exts; intros; simpl; [reflexivity|]. rewrite IHexts. reflexivity. Qed.

Lemma MainNode_str_state_loops self :
  MainNode_str_state self
  = (with_sub_resources
       (fst (sub_loop (sub_resources self) (str_after_ext_loop (ext_resources self))))
       (with_ext_resources (with_ext_ids 0 (ext_resources self)) self),
     str_after_loops self
       (fst (sub_loop (sub_resources self) (str_after_ext_loop (ext_resources self))))
       (snd (sub_loop (sub_resources self) (str_after_ext_loop (ext_resources self))))).
Proof.
  unfold MainNode_str_state, str_after_loops, str_after_ext_loop.
  rewrite ext_loop_spec. destruct (sub_loop _ _). reflexivity.
Qed.

(** X9.  Converting a root to text a second time gives the same text and
    leaves the ids as the first conversion stored them. *)
Theorem X9_str_twice_is_the_same self :
  MainNode_str (serialized self) = MainNode_str self
  /\ serialized (serialized self) = serialized self.
Proof.
  assert (H : MainNode_str_state (serialized self)
              = (serialized self, MainNode_str self)).
  { unfold serialized, MainNode_str.
    rewrite (MainNode_str_state_loops self).
    set (out0 := str_after_ext_loop (ext_resources self)).
    destruct (sub_loop (sub_resources self) out0) as [h' out1] eqn:E.
    cbn [fst snd]. rewrite MainNode_str_state_loops.
    cbn [ext_resources sub_resources with_sub_resources with_ext_resources].
    unfold str_after_ext_loop at 1 2 3. rewrite with_ext_ids_again.
    fold (str_after_ext_loop (ext_resources self)). fold out0.
    rewrite (sub_loop_again _ _ _ _ E). reflexivity. }
  unfold MainNode_str at 1, serialized at 2. rewrite H. split; reflexivity.
Qed.

(** ** When the order of the set does not matter *)

Lemma short_nodup_lists_equal : forall l1 l2 : list string,
  NoDup l1 -> NoDup l2 -> (forall x, In x l1 <-> In x l2) ->
  List.length l1 <= 1 -> l1 = l2.
Proof.
  intros l1 l2 H1 H2 Hel Hlen.
  assert (Hl : List.length l2 = List.length l1).
  { apply Permutation_length, NoDup_Permutation; auto. intros x. symmetry. apply Hel. }
  destruct l1 as [|x [|? ?]]; destruct l2 as [|y [|? ?]]; simpl in *;
    try discriminate; try lia; [reflexivity|].
  f_equal. destruct (proj1 (Hel x) (or_introl eq_refl)) as [H|[]]. congruence.
Qed.

Lemma other_nodes_unique it1 it2 l own :
  set_order it1 -> set_order it2 ->
  In own l -> List.length (nodup string_dec l) <= 2 ->
  filter (fun x => negb (String.eqb own x)) (it1 l)
  = filter (fun x => negb (String.eqb own x)) (it2 l).
Proof.
  intros H1 H2 Hown Hlen.
  destruct (H1 l) as [Hnd1 Hel1]. destruct (H2 l) as [Hnd2 Hel2].
  assert (Hin : forall it, (forall x, In x (it l) <-> In x l) ->
                forall x, In x (filter (fun x => negb (String.eqb own x)) (it l))
                          <-> In x l /\ x <> own).
  { intros it Hel x. rewrite filter_In, Hel, negb_true_iff, String.eqb_neq.
    split; intros [Ha Hb]; split; auto. }
  apply short_nodup_lists_equal.
  - apply NoDup_filter. exact Hnd1.
  - apply NoDup_filter. exact Hnd2.
  - intros x. rewrite (Hin it1 Hel1), (Hin it2 Hel2). reflexivity.
  - assert (Hp : Permutation
                   (own :: filter (fun x => negb (String.eqb own x)) (it1 l))
                   (nodup string_dec l)).
    { apply NoDup_Permutation.
      - constructor; [|apply NoDup_filter; exact Hnd1].
        rewrite (Hin it1 Hel1). tauto.
      - apply NoDup_nodup.
      - intros x. rewrite nodup_In. simpl. rewrite (Hin it1 Hel1).
        destruct (string_dec own x) as [<-|Hn]; [tauto|].
        split; [intros [H|[H _]]; [congruence|exact H]|].
        intros H. right. split; [exact H|congruence]. }
    apply Permutation_length in Hp. simpl in Hp. lia.
Qed.

Lemma nodup_length_same_elements (l1 l2 : list string) :
  (forall x, In x l1 <-> In x l2) ->
  List.length (nodup string_dec l1) = List.length (nodup string_dec l2).
Proof.
  intros H. apply Permutation_length, NoDup_Permutation; try apply NoDup_nodup.
  intros x. rewrite !nodup_In. apply H.
Qed.

(** X10.  When at most two source nodes, by name, declare a skin, the
    document built from valid files does not depend on the order in which
    the set of node names is iterated. *)
Theorem X10_two_skin_nodes_any_order it1 it2 files t n e s :
  set_order it1 -> set_order it2 ->
  List.length (nodup string_dec (skin_node_names files)) <= 2 ->
  build_tree it1 (mkArgs (valid_inputs files) t n e s)
  = build_tree it2 (mkArgs (valid_inputs files) t n e s).
Proof.
  intros H1 H2 Hlen. rewrite !build_tree_valid. f_equal.
  assert (Hs : sync_skin_tracks it1 (flat_map file_subs files)
               = sync_skin_tracks it2 (flat_map file_subs files)).
  { unfold sync_skin_tracks. apply map_ext_in. intros sr Hin.
    destruct (isinstance_SubResourceSpineSkin sr) eqn:E; [|reflexivity].
    rewrite !add_other_tracks_any. do 3 f_equal.
    apply other_nodes_unique; auto.
    - apply in_map. apply filter_In. auto.
    - rewrite (nodup_length_same_elements _ (skin_node_names files)); [exact Hlen|].
      apply skin_nodes_of_subs. }
  unfold built. rewrite Hs. reflexivity.
Qed.

Lemma X10_two_skin_nodes_any_order_witness :
  set_order insertion_order /\ set_order reverse_order
  /\ List.length (nodup string_dec (skin_node_names two_files)) <= 2
  /\ build_tree insertion_order (mkArgs (valid_inputs two_files) "Node2D" "player" None None)
     = build_tree reverse_order (mkArgs (valid_inputs two_files) "Node2D" "player" None None).
Proof.
  split; [exact insertion_order_ok|]. split; [exact reverse_order_ok|].
  split; [vm_compute; lia|].
  apply (X10_two_skin_nodes_any_order insertion_order reverse_order two_files).
  - exact insertion_order_ok.
  - exact reverse_order_ok.
  - vm_compute. lia.
Defined.

(** ** Templates and [dedent] *)

Lemma no_newline_app : forall a b,
  no_newline (a ++ b) = no_newline a && no_newline b.
Proof.
  induction a as [|c a IH]; intros b; simpl; [reflexivity|].
  rewrite IH, andb_assoc. reflexivity.
Qed.

Lemma no_newline_sp n : no_newline (sp n) = true.
Proof. induction n; simpl; auto. Qed.

Lemma split_lines_line : forall a b,
  no_newline a = true -> split_lines (a ++ nl ++ b) = a :: split_lines b.
Proof.
  induction a as [|c a IH]; intros b Ha.
  - reflexivity.
  - simpl in Ha. apply andb_true_iff in Ha. destruct Ha as [Hc Ha].
    apply negb_true_iff in Hc.
    change ((String c a ++ nl ++ b)) with (String c (a ++ nl ++ b)).
    cbn [split_lines]. rewrite Hc, (IH b Ha). reflexivity.
Qed.

Lemma split_lines_one : forall a, no_newline a = true -> split_lines a = [a].
Proof.
  induction a as [|c a IH]; intros Ha; [reflexivity|].
  simpl in Ha. apply andb_true_iff in Ha. destruct Ha as [Hc Ha].
  apply negb_true_iff in Hc. cbn [split_lines]. rewrite Hc, (IH Ha). reflexivity.
Qed.

Lemma split_lines_template n : forall ls,
  Forall template_line_ok ls ->
  split_lines (template n ls)
  = (map (indented_line n) ls ++ [sp n])%list.
Proof.
  induction 1 as [|[s|] ls Hl H IH]; cbn [template fold_right map app].
  - apply split_lines_one, no_newline_sp.
  - fold (template n ls). unfold line. rewrite !append_assoc.
    rewrite <- (append_assoc (sp n) s). rewrite split_lines_line, IH; [reflexivity|].
    rewrite no_newline_app, no_newline_sp. apply Hl.
  - fold (template n ls). rewrite <- IH. reflexivity.
Qed.

Lemma all_indent_sp_app n s : all_indent (sp n ++ s) = all_indent s.
Proof. induction n; simpl; auto. Qed.

Lemma all_indent_sp n : all_indent (sp n) = true.
Proof. induction n; simpl; auto. Qed.

Lemma starts_text_not_indent s : starts_text s = true -> all_indent s = false.
Proof.
  destruct s as [|c s]; simpl; [discriminate|].
  intros H. apply negb_true_iff in H. rewrite H. reflexivity.
Qed.

Lemma leading_indent_sp_app n s :
  starts_text s = true -> leading_indent (sp n ++ s) = sp n.
Proof.
  intros H. induction n as [|n IH].
  - destruct s as [|c s]; simpl in *; [reflexivity|].
    apply negb_true_iff in H. rewrite H. reflexivity.
  - change (sp (S n) ++ s) with (String " "%char (sp n ++ s)).
    change (sp (S n)) with (String " "%char (sp n)).
    cbn [leading_indent]. change (is_indent " "%char) with true. cbv iota.
    rewrite IH. reflexivity.
Qed.

Lemma common_prefix_same : forall a, common_prefix a a = a.
Proof.
  induction a as [|c a IH]; simpl; [reflexivity|].
  rewrite Ascii.eqb_refl, IH. reflexivity.
Qed.

Lemma margin_of_same m : forall l,
  Forall (eq m) l ->
  fold_left (fun acc ind => match acc with
                            | None => Some ind
                            | Some p => Some (common_prefix p ind)
                            end) l (Some m) = Some m.
Proof.
  induction 1 as [|x l <- H IH]; simpl; [reflexivity|].
  rewrite common_prefix_same. exact IH.
Qed.

Lemma prefix_app : forall a b, String.prefix a (a ++ b) = true.
Proof.
  induction a as [|c a IH]; intros b; simpl; [destruct b; reflexivity|].
  destruct (ascii_dec c c) as [_|Hn]; [apply IH|exfalso; apply Hn; reflexivity].
Qed.

Lemma drop_app : forall a b, drop (String.length a) (a ++ b) = b.
Proof. induction a; intros; simpl; auto. Qed.

Lemma drop_prefix_app a b : drop_prefix a (a ++ b) = b.
Proof. unfold drop_prefix. rewrite prefix_app. apply drop_app. Qed.

Lemma join_lines_flush : forall ls,
  join_lines (map line_text ls ++ [EmptyString]) = flush_left ls.
Proof.
  unfold join_lines.
  induction ls as [|l ls IH]; [reflexivity|].
  cbn [map app flush_left fold_right]. fold (flush_left ls). rewrite <- IH.
  destruct (map line_text ls ++ [EmptyString])%list eqn:E.
  - destruct (map line_text ls); discriminate.
  - destruct l; reflexivity.
Qed.

(** [dedent] removes the indentation of a template whose text lines start
    with text and hold no line break. *)
Lemma dedent_template n ls :
  Forall template_line_ok ls ->
  has_text_line ls = true ->
  dedent (template n ls) = flush_left ls.
Proof.
  intros Hok Htext. unfold dedent. rewrite (split_lines_template n ls Hok).
  rewrite map_app. cbn [map]. rewrite all_indent_sp, map_map.
  set (lines := map _ ls).
  assert (Hlines : lines = map (indented_line n) ls).
  { subst lines. apply map_ext_in. intros [s|] Hin; [|reflexivity].
    cbn [indented_line]. rewrite Forall_forall in Hok. destruct (Hok _ Hin) as [_ Hs].
    rewrite all_indent_sp_app, (starts_text_not_indent _ Hs). reflexivity. }
  rewrite Hlines. clear lines Hlines.
  rewrite filter_app. cbn [filter all_indent negb]. rewrite app_nil_r.
  set (indents := map leading_indent _).
  assert (Hind : Forall (eq (sp n)) indents /\ indents <> []).
  { subst indents. clear -Hok Htext. induction Hok as [|[s|] ls Hl H IH].
    - discriminate.
    - destruct Hl as [_ Hs]. cbn [map filter indented_line].
      rewrite all_indent_sp_app, (starts_text_not_indent _ Hs). cbn [negb map].
      rewrite (leading_indent_sp_app n s Hs). split; [|discriminate].
      constructor; [reflexivity|].
      destruct (has_text_line ls) eqn:E; [apply IH; reflexivity|].
      clear -H E. induction H as [|[s|] ls Hl H IH]; simpl in *;
        try discriminate; auto.
    - cbn [map filter all_indent negb indented_line]. apply IH. exact Htext. }
  destruct Hind as [Hall Hne].
  assert (Hm : margin_of indents = Some (sp n)).
  { unfold margin_of. destruct indents as [|i indents]; [congruence|].
    inversion Hall; subst. simpl. apply margin_of_same. assumption. }
  rewrite Hm. rewrite <- join_lines_flush.
  clear. destruct n as [|n].
  - change (sp 0) with EmptyString. cbv iota.
    replace (map (indented_line 0) ls) with (map line_text ls)
      by (apply map_ext; intros [s|]; reflexivity).
    reflexivity.
  - change (sp (S n)) with (String " "%char (sp n)). cbv iota.
    rewrite map_app, map_map. cbn [map].
    replace (map (fun x => drop_prefix (String " "%char (sp n)) (indented_line (S n) x)) ls)
      with (map line_text ls); [reflexivity|].
    apply map_ext. intros [s|]; [|reflexivity].
    symmetry. apply (drop_prefix_app (sp (S n)) s).
Qed.

(** ** The blocks of well-named resources *)

Lemma no_newline_string_of_uint : forall d,
  no_newline (NilEmpty.string_of_uint d) = true.
Proof. induction d; simpl; auto. Qed.

Lemma no_newline_str_of_nat n : no_newline (str_of_nat n) = true.
Proof. apply no_newline_string_of_uint. Qed.

Lemma no_newline_str_of_opt o : no_newline (str_of_opt o) = true.
Proof. destruct o; [apply no_newline_str_of_nat|reflexivity]. Qed.

Ltac no_newline_solve :=
  unfold quoted, dq, node_heading, sub_resource_type, SpineNode_type,
    AnimationPlayerNode_type;
  repeat (rewrite ?no_newline_app, ?no_newline_str_of_nat, ?no_newline_str_of_opt;
          simpl);
  repeat match goal with
         | H : no_newline _ = true |- _ => rewrite H
         end;
  reflexivity.

Ltac template_lines_ok :=
  repeat (constructor; [first [exact I | split; [no_newline_solve|reflexivity]]|]);
  constructor.

(** X11.  When its path and type hold no line break, an external resource
    is rendered as one line, flush left. *)
Theorem X11_ExtResource_block e :
  no_newline (resource_path e) = true ->
  no_newline (resource_type e) = true ->
  ExtResource_str e
  = "[ext_resource path=" ++ quoted ("res://" ++ resource_path e)
    ++ " type=" ++ quoted (resource_type e)
    ++ " id=" ++ str_of_opt (ext_i e) ++ "]" ++ nl.
Proof.
  intros Hp Ht. unfold ExtResource_str.
  change (dedent (template 12
            [Some ("[ext_resource path=" ++ quoted ("res://" ++ resource_path e)
                   ++ " type=" ++ quoted (resource_type e)
                   ++ " id=" ++ str_of_opt (ext_i e) ++ "]")])
          = "[ext_resource path=" ++ quoted ("res://" ++ resource_path e)
            ++ " type=" ++ quoted (resource_type e)
            ++ " id=" ++ str_of_opt (ext_i e) ++ "]" ++ nl).
  rewrite dedent_template; [|template_lines_ok|reflexivity].
  cbn [flush_left fold_right]. rewrite append_nil_r, !append_assoc. reflexivity.
Qed.

(** X12.  When its names hold no line break, a playback animation is
    rendered as the lines of its template, flush left. *)
Theorem X12_SubResourceSpinePlay_block sr :
  no_newline (resource_name sr) = true ->
  no_newline (node_name sr) = true ->
  no_newline (base_resource_name sr) = true ->
  SubResourceSpinePlay_str sr = flush_left (SubResourceSpinePlay_lines sr).
Proof.
  intros Hr Hn Hb.
  change (SubResourceSpinePlay_str sr)
    with (dedent (template 12 (SubResourceSpinePlay_lines sr))).
  apply dedent_template; [|reflexivity].
  unfold SubResourceSpinePlay_lines. template_lines_ok.
Qed.

Lemma X12_SubResourceSpinePlay_block_witness :
  no_newline "spine_hero__idle" = true
  /\ SubResourceSpinePlay_str (new_SubResourceSpinePlay "idle" "spine_hero")
     = flush_left (SubResourceSpinePlay_lines
                     (new_SubResourceSpinePlay "idle" "spine_hero")).
Proof.
  split; [reflexivity|].
  apply (X12_SubResourceSpinePlay_block (new_SubResourceSpinePlay "idle" "spine_hero"));
    reflexivity.
Defined.

(** X13.  When the node name and the skin name hold no line break, a track
    is rendered as the lines of its template, flush left, under the number
    it was given. *)
Theorem X13_track_text_block i node base :
  no_newline node = true ->
  no_newline base = true ->
  track_text i node base = flush_left (track_lines i node base).
Proof.
  intros Hn Hb.
  change (track_text i node base) with (dedent (template 12 (track_lines i node base))).
  apply dedent_template; [|reflexivity].
  unfold track_lines. template_lines_ok.
Qed.

Lemma X13_track_text_block_witness :
  no_newline "spine_a" = true
  /\ track_text 1 "spine_a" "default" = flush_left (track_lines 1 "spine_a" "default").
Proof.
  split; [reflexivity|].
  apply (X13_track_text_block 1 "spine_a" "default"); reflexivity.
Defined.

(** X14.  When its display name holds no line break, a skin-change
    animation is rendered as the lines of its template, flush left, then its
    tracks in their order, then an empty line. *)
Theorem X14_SubResourceSpineSkin_block sr :
  no_newline (resource_name sr) = true ->
  SubResourceSpineSkin_str sr
  = flush_left (SubResourceSpineSkin_lines sr) ++ join (tracks sr) ++ nl.
Proof.
  intros Hr. unfold SubResourceSpineSkin_str.
  rewrite (fold_left_append (fun t => t)), map_id.
  change (dedent _) with (dedent (template 12 (SubResourceSpineSkin_lines sr))).
  rewrite dedent_template; [apply append_assoc| |reflexivity].
  unfold SubResourceSpineSkin_lines. template_lines_ok.
Qed.

Lemma X14_SubResourceSpineSkin_block_witness :
  no_newline "spine_hero__skin__blue" = true
  /\ SubResourceSpineSkin_str (new_SubResourceSpineSkin "blue" "spine_hero")
     = flush_left (SubResourceSpineSkin_lines
                     (new_SubResourceSpineSkin "blue" "spine_hero"))
       ++ join (tracks (new_SubResourceSpineSkin "blue" "spine_hero")) ++ nl.
Proof.
  split; [reflexivity|].
  apply (X14_SubResourceSpineSkin_block (new_SubResourceSpineSkin "blue" "spine_hero")).
  reflexivity.
Defined.

(** X15.  When its name and parent hold no line break, a Spine node is
    rendered as the lines of its template, flush left, with its index and
    the id of its external resource. *)
Theorem X15_SpineNode_block nm p i ext :
  no_newline nm = true ->
  no_newline p = true ->
  SpineNode_str nm p i ext = flush_left (SpineNode_lines nm p i ext).
Proof.
  intros Hn Hp.
  change (SpineNode_str nm p i ext)
    with (dedent (template 12 (SpineNode_lines nm p i ext))).
  apply dedent_template; [|reflexivity].
  unfold SpineNode_lines. template_lines_ok.
Qed.

Lemma X15_SpineNode_block_witness :
  no_newline "spine_hero" = true
  /\ SpineNode_str "spine_hero" "." 0 (Some 1)
     = flush_left (SpineNode_lines "spine_hero" "." 0 (Some 1)).
Proof.
  split; [reflexivity|].
  apply (X15_SpineNode_block "spine_hero" "." 0 (Some 1)); reflexivity.
Defined.

Lemma fold_left_anims heap : forall anims out,
  fold_left (fun out '(i, a) =>
               match nth_error heap a with
               | Some sr => out ++ anims_line i sr
               | None => out
               end) anims out
  = out ++ anims_text heap anims.
Proof.
  unfold anims_text.
  induction anims as [|[i a] anims IH]; intros out; simpl.
  - rewrite append_nil_r. reflexivity.
  - rewrite IH. destruct (nth_error heap a); [rewrite append_assoc|]; reflexivity.
Qed.

(** X16.  When its name and parent hold no line break, the animation player
    is rendered as the lines of its two templates, flush left and with two
    empty lines after the heading, then one line for each entry of its
    animation list, in the order of the list, then the blend times. *)
Theorem X16_AnimationPlayerNode_block heap nm p i anims :
  no_newline nm = true ->
  no_newline p = true ->
  AnimationPlayerNode_str heap nm p i anims
  = flush_left (AnimationPlayerNode_lines nm p i)
    ++ anims_text heap anims ++ "blend_times = [  ]" ++ nl.
Proof.
  intros Hn Hp. unfold AnimationPlayerNode_str.
  rewrite fold_left_anims.
  change (dedent (line 12 (node_heading nm AnimationPlayerNode_type p i) ++ nl ++ sp 12))
    with (dedent (template 12 [Some (node_heading nm AnimationPlayerNode_type p i); None])).
  rewrite dedent_template; [|template_lines_ok|reflexivity].
  cbn [flush_left fold_right]. rewrite append_nil_r.
  set (h := node_heading nm AnimationPlayerNode_type p i).
  match goal with
  | |- (dedent ?text ++ _) ++ _ = _ =>
      replace text with (template 12 (AnimationPlayerNode_lines nm p i))
  end.
  - rewrite dedent_template; [apply append_assoc| |reflexivity].
    unfold AnimationPlayerNode_lines. template_lines_ok.
  - unfold AnimationPlayerNode_lines, template, line. cbn [fold_right]. fold h.
    rewrite !append_assoc. reflexivity.
Qed.

Lemma X16_AnimationPlayerNode_block_witness :
  no_newline "animation" = true
  /\ AnimationPlayerNode_str [] "animation" "." 1 []
     = flush_left (AnimationPlayerNode_lines "animation" "." 1)
       ++ anims_text [] [] ++ "blend_times = [  ]" ++ nl.
Proof.
  split; [reflexivity|].
  apply (X16_AnimationPlayerNode_block [] "animation" "." 1 []); reflexivity.
Defined.

Lemma X11_ExtResource_block_witness :
  no_newline "hero.json" = true
  /\ ExtResource_str (mkExtResource "hero.json" "SpineResource" (Some 1))
     = "[ext_resource path=" ++ quoted "res://hero.json"
       ++ " type=" ++ quoted "SpineResource" ++ " id=1]" ++ nl.
Proof.
  split; [reflexivity|].
  apply (X11_ExtResource_block (mkExtResource "hero.json" "SpineResource" (Some 1)));
    reflexivity.
Defined.

(** ** The heading of the root after [dedent] *)

Lemma split_lines_nonempty s : split_lines s <> [].
Proof.
  destruct s as [|c s]; simpl; [discriminate|].
  destruct (Ascii.eqb c nl_char); [discriminate|].
  destruct (split_lines s); discriminate.
Qed.

Lemma split_lines_app : forall a b,
  split_lines (a ++ nl ++ b) = (split_lines a ++ split_lines b)%list.
Proof.
  induction a as [|c a IH]; intros b; [reflexivity|].
  change (String c a ++ nl ++ b) with (String c (a ++ nl ++ b)).
  cbn [split_lines]. rewrite IH.
  destruct (Ascii.eqb c nl_char); [reflexivity|].
  pose proof (split_lines_nonempty a) as Hne.
  destruct (split_lines a); [congruence|reflexivity].
Qed.

Lemma join_lines_app : forall l1 l2,
  l1 <> [] -> l2 <> [] ->
  join_lines (l1 ++ l2) = join_lines l1 ++ nl ++ join_lines l2.
Proof.
  unfold join_lines. induction l1 as [|x l1 IH]; intros l2 H1 H2; [congruence|].
  destruct l1 as [|y l1].
  - destruct l2; [congruence|reflexivity].
  - change (String.concat nl (((x :: y :: l1) ++ l2)%list))
      with (x ++ nl ++ String.concat nl ((y :: l1) ++ l2)%list).
    rewrite IH by (auto; discriminate).
    change (String.concat nl (x :: y :: l1)) with (x ++ nl ++ String.concat nl (y :: l1)).
    rewrite !append_assoc. reflexivity.
Qed.

Lemma common_prefix_nil_r p : common_prefix p EmptyString = EmptyString.
Proof. destruct p; reflexivity. Qed.

Lemma margin_of_with_empty : forall indents,
  In EmptyString indents -> margin_of indents = Some EmptyString.
Proof.
  unfold margin_of. intros indents Hin.
  apply in_split in Hin. destruct Hin as (l1 & l2 & ->).
  rewrite fold_left_app. cbn [fold_left].
  set (m := fold_left _ l1 None).
  assert (Hm : match m with
               | None => Some EmptyString
               | Some p => Some (common_prefix p EmptyString)
               end = Some EmptyString)
    by (destruct m; [rewrite common_prefix_nil_r|]; reflexivity).
  rewrite Hm. clear. induction l2 as [|x l2 IH]; simpl; auto.
Qed.

(** When a line of the text starts with text, [dedent] removes no
    indentation: it only empties the lines made of blanks and tabs. *)
Lemma dedent_zero_indent text l :
  In l (split_lines text) -> starts_text l = true ->
  dedent text = join_lines (map blank_to_empty (split_lines text)).
Proof.
  intros Hin Hl. unfold dedent. fold blank_to_empty.
  rewrite margin_of_with_empty; [reflexivity|].
  apply in_map_iff. exists l.
  assert (Ha : all_indent l = false) by (apply starts_text_not_indent; exact Hl).
  split.
  - destruct l as [|c l]; [reflexivity|]. simpl in Hl |- *.
    apply negb_true_iff in Hl. rewrite Hl. reflexivity.
  - apply filter_In. split; [|rewrite Ha; reflexivity].
    apply in_map_iff. exists l. split; [|exact Hin].
    unfold blank_to_empty. rewrite Ha. reflexivity.
Qed.

Lemma join_lines_head c l0 ls :
  exists rest, join_lines (String c l0 :: ls) = String c rest.
Proof.
  unfold join_lines. destruct ls as [|y ls].
  - exists l0. reflexivity.
  - exists (l0 ++ nl ++ String.concat nl (y :: ls)). reflexivity.
Qed.

Lemma split_lines_head c z :
  Ascii.eqb c nl_char = false ->
  exists l0 ls, split_lines (String c z) = String c l0 :: ls.
Proof.
  intros Hc. cbn [split_lines]. rewrite Hc.
  destruct (split_lines z); eauto.
Qed.

(** The root's heading keeps its sixteen blanks when the text of the
    resources has a later line that starts with text. *)
Lemma root_heading_zero_indent before c z nm ty :
  is_indent c = false -> Ascii.eqb c nl_char = false ->
  no_newline nm = true -> no_newline ty = true ->
  exists p1 p2,
    root_heading (before ++ nl ++ String c z) nm ty
    = p1 ++ String c p2 ++ nl ++ sp 16 ++ root_line nm ty ++ nl ++ nl.
Proof.
  intros Hc Hnl Hn Ht. unfold root_heading, line. fold (root_line nm ty).
  pose (rl := sp 16 ++ root_line nm ty).
  assert (Hroot : no_newline rl = true).
  { unfold rl. rewrite no_newline_app. unfold root_line. simpl. no_newline_solve. }
  assert (Hstart : all_indent rl = false) by reflexivity.
  replace ((sp 16 ++ (before ++ nl ++ String c z) ++ nl)
           ++ (sp 16 ++ root_line nm ty ++ nl) ++ nl ++ sp 16)
    with ((sp 16 ++ before) ++ nl ++ String c z ++ nl
          ++ rl ++ nl ++ EmptyString ++ nl ++ sp 16)
    by (unfold rl; rewrite !append_assoc; reflexivity).
  destruct (split_lines_head c z Hnl) as (l0 & ls & Hsplit).
  assert (Hlines : split_lines ((sp 16 ++ before) ++ nl ++ String c z ++ nl
                                ++ rl ++ nl ++ EmptyString ++ nl ++ sp 16)
                   = (split_lines (sp 16 ++ before)
                      ++ (String c l0 :: ls) ++ [rl; EmptyString; sp 16])%list).
  { rewrite !split_lines_app, Hsplit.
    rewrite (split_lines_one _ Hroot). reflexivity. }
  rewrite (dedent_zero_indent _ (String c l0)).
  - rewrite Hlines, !map_app. cbn [map].
    assert (E1 : blank_to_empty (String c l0) = String c l0)
      by (unfold blank_to_empty; simpl; rewrite Hc; reflexivity).
    assert (E2 : blank_to_empty rl = rl)
      by (unfold blank_to_empty; rewrite Hstart; reflexivity).
    rewrite E1, E2.
    change (blank_to_empty EmptyString) with EmptyString.
    change (blank_to_empty (sp 16)) with EmptyString.
    rewrite join_lines_app;
      [|intros H; apply map_eq_nil in H; exact (split_lines_nonempty _ H)
       |discriminate].
    rewrite (join_lines_app (String c l0 :: map blank_to_empty ls))
      by discriminate.
    destruct (join_lines_head c l0 (map blank_to_empty ls)) as [rest Hrest].
    rewrite Hrest.
    exists (join_lines (map blank_to_empty (split_lines (sp 16 ++ before))) ++ nl), rest.
    unfold join_lines, rl. cbn [String.concat].
    rewrite !append_assoc, append_nil_r. reflexivity.
  - rewrite Hlines. apply in_or_app. right. left. reflexivity.
  - simpl. rewrite Hc. reflexivity.
Qed.

Lemma no_newline_basename : forall p,
  no_newline p = true -> no_newline (basename p) = true.
Proof.
  induction p as [|c p IH]; intros H; [reflexivity|].
  cbn [basename]. destruct (has_slash (String c p)); [|exact H].
  simpl in H. apply andb_true_iff in H. apply IH, H.
Qed.

Lemma no_newline_replace_from old new :
  no_newline new = true ->
  forall s k, no_newline s = true -> no_newline (replace_from old new k s) = true.
Proof.
  intros Hnew. induction s as [|c s IH]; intros k H; [reflexivity|].
  simpl in H. apply andb_true_iff in H. destruct H as [Hc Hs].
  cbn [replace_from]. destruct k as [|k]; [|apply IH; exact Hs].
  destruct (String.prefix old (String c s)).
  - rewrite no_newline_app, Hnew. apply IH. exact Hs.
  - cbn [no_newline]. rewrite Hc. apply IH. exact Hs.
Qed.

Lemma no_newline_spine_node_name p :
  no_newline p = true -> no_newline (spine_node_name p) = true.
Proof.
  intros H. unfold spine_node_name, replace.
  rewrite no_newline_app. cbn [andb]. simpl no_newline at 1. cbn [andb].
  apply no_newline_replace_from; [reflexivity|].
  apply no_newline_replace_from; [reflexivity|].
  apply no_newline_basename. exact H.
Qed.

Lemma file_subs_clean f sr :
  clean_file f = true -> In sr (file_subs f) ->
  no_newline (resource_name sr) = true
  /\ no_newline (node_name sr) = true
  /\ no_newline (base_resource_name sr) = true.
Proof.
  unfold clean_file. rewrite !andb_true_iff, !forallb_forall.
  intros [[Hp Ha] Hs] Hin.
  pose proof (no_newline_spine_node_name _ Hp) as Hnode.
  unfold file_subs in Hin. apply in_app_or in Hin.
  destruct Hin as [Hin|Hin]; apply in_map_iff in Hin;
    destruct Hin as (x & <- & Hx);
    unfold new_SubResourceSpinePlay, new_SubResourceSpineSkin, add_track;
    cbn [resource_name node_name base_resource_name];
    rewrite !no_newline_app, Hnode;
    [rewrite (Ha x Hx)|rewrite (Hs x Hx)]; repeat split; reflexivity.
Qed.

Lemma built_subs_clean set_iter files sr :
  forallb clean_file files = true ->
  In sr (sync_skin_tracks set_iter (flat_map file_subs files)) ->
  no_newline (resource_name sr) = true
  /\ no_newline (node_name sr) = true
  /\ no_newline (base_resource_name sr) = true.
Proof.
  intros Hclean Hin. unfold sync_skin_tracks in Hin.
  apply in_map_iff in Hin. destruct Hin as (sr0 & Heq & Hin).
  apply in_flat_map in Hin. destruct Hin as (f & Hf & Hsr0).
  rewrite forallb_forall in Hclean.
  pose proof (file_subs_clean f sr0 (Hclean f Hf) Hsr0) as H0.
  destruct (isinstance_SubResourceSpineSkin sr0); [|subst sr; exact H0].
  rewrite add_other_tracks_any in Heq. subst sr. exact H0.
Qed.

Lemma get_head s c : String.get 0 s = Some c -> exists z, s = String c z.
Proof. destruct s as [|x s]; simpl; [discriminate|]. intros H. inversion H. eauto. Qed.

Lemma ExtResource_str_head e :
  no_newline (resource_path e) = true ->
  no_newline (resource_type e) = true ->
  exists z, ExtResource_str e = String "["%char z.
Proof.
  intros Hp Ht. unfold ExtResource_str.
  change (line 12 ("[ext_resource path=" ++ quoted ("res://" ++ resource_path e)
                   ++ " type=" ++ quoted (resource_type e)
                   ++ " id=" ++ str_of_opt (ext_i e) ++ "]") ++ sp 12)
    with (template 12
            [Some ("[ext_resource path=" ++ quoted ("res://" ++ resource_path e)
                   ++ " type=" ++ quoted (resource_type e)
                   ++ " id=" ++ str_of_opt (ext_i e) ++ "]")]).
  rewrite dedent_template; [|template_lines_ok|reflexivity].
  apply get_head. reflexivity.
Qed.

Lemma SubResource_str_head sr :
  no_newline (resource_name sr) = true ->
  no_newline (node_name sr) = true ->
  no_newline (base_resource_name sr) = true ->
  exists z, SubResource_str sr = String "["%char z.
Proof.
  intros Hr Hn Hb. unfold SubResource_str. destruct (sr_class sr).
  - change (SubResourceSpinePlay_str sr)
      with (dedent (template 12 (SubResourceSpinePlay_lines sr))).
    rewrite dedent_template; [apply get_head; reflexivity| |reflexivity].
    unfold SubResourceSpinePlay_lines. template_lines_ok.
  - unfold SubResourceSpineSkin_str.
    change (dedent _) with (dedent (template 12 (SubResourceSpineSkin_lines sr))).
    rewrite dedent_template; [| |reflexivity].
    + rewrite (fold_left_append (fun t => t)). apply get_head. reflexivity.
    + unfold SubResourceSpineSkin_lines. template_lines_ok.
Qed.

Lemma strip_between a c m :
  isspace c = false ->
  exists pre,
    strip (a ++ String c m ++ "blend_times = [  ]" ++ nl)
    = pre ++ String c m ++ "blend_times = [  ]".
Proof.
  intros Hc. unfold strip.
  replace (a ++ String c m ++ "blend_times = [  ]" ++ nl)
    with ((a ++ String c m) ++ ("blend_times = [  ]" ++ nl))
    by (rewrite !append_assoc; reflexivity).
  rewrite rstrip_app_keep by (vm_compute; discriminate).
  replace (rstrip ("blend_times = [  ]" ++ nl)) with "blend_times = [  ]"
    by (vm_compute; reflexivity).
  rewrite append_assoc.
  change (String c m ++ "blend_times = [  ]") with (String c (m ++ "blend_times = [  ]")).
  apply lstrip_app_stop. exact Hc.
Qed.

Lemma join_head c z rest : join (String c z :: rest) = String c (z ++ join rest).
Proof. reflexivity. Qed.

(** The text of the resources of a document with a sub-resource: the
    external resources, then a line that starts with text. *)
Lemma built_resources_text set_iter files t n e s :
  forallb clean_file files = true ->
  clean_script s = true ->
  0 < list_sum (map file_sub_count files) ->
  exists before z,
    resources_text (built set_iter files t n e s)
    = before ++ nl ++ String "["%char z.
Proof.
  intros Hclean Hscript Hsubs.
  set (tree := built set_iter files t n e s).
  assert (Hext : exists j, join (ext_blocks tree) = String "["%char j).
  { unfold ext_blocks. subst tree. cbn [built ext_resources].
    destruct files as [|f files]; [simpl in Hsubs; lia|].
    assert (Hf : no_newline (fst f) = true).
    { simpl in Hclean. unfold clean_file in Hclean.
      rewrite !andb_true_iff in Hclean. tauto. }
    destruct s as [p|]; cbn [script_exts app map with_ext_ids].
    - destruct (ExtResource_str_head (set_ext_i (0 + 1) (mkExtResource p "Script" None))
                  Hscript eq_refl) as [z Hz].
      rewrite Hz, join_head. eauto.
    - destruct (ExtResource_str_head (set_ext_i (0 + 1) (file_ext f)) Hf eq_refl)
        as [z Hz].
      rewrite Hz, join_head. eauto. }
  assert (Hsub : exists z, join (sub_blocks tree) = String "["%char z).
  { unfold sub_blocks, with_sub_ids.
    pose proof (sorted_sub_resources_length (sub_resources tree)) as Hlen.
    destruct (sorted_sub_resources (sub_resources tree)) as [|[a sr] rest] eqn:E.
    - exfalso. simpl in Hlen. subst tree. cbn [built sub_resources] in Hlen.
      rewrite sync_skin_tracks_length, flat_map_length in Hlen.
      rewrite (map_ext _ file_sub_count file_subs_length) in Hlen. lia.
    - assert (Hin : In sr (sub_resources tree)).
      { apply (nth_error_In _ a). apply in_sorted_sub_resources.
        rewrite E. left. reflexivity. }
      destruct (built_subs_clean set_iter files sr Hclean Hin) as (Hr & Hn & Hb).
      unfold enumerate. cbn [List.length seq combine map].
      destruct (SubResource_str_head (set_sr_i (0 + 1) sr) Hr Hn Hb) as [z Hz].
      rewrite Hz, join_head. eauto. }
  destruct Hext as (j & Hj). destruct Hsub as (z & Hz).
  unfold resources_text. rewrite Hj, Hz. cbv zeta iota.
  exists (String "["%char j), z. rewrite append_assoc. reflexivity.
Qed.

(** X17.  When the names and paths hold no line break and the valid files
    give at least one sub-resource, the heading of the root is written
    behind sixteen blanks: the text of the resources is put into the
    template before [dedent] runs, and its lines have no indentation to
    share with the template. *)
Theorem X17_root_heading_keeps_its_indentation set_iter files t n e s :
  no_newline n = true ->
  no_newline t = true ->
  forallb clean_file files = true ->
  clean_script s = true ->
  0 < list_sum (map file_sub_count files) ->
  exists tree pre post,
    build_tree set_iter (mkArgs (valid_inputs files) t n e s) = Ok tree
    /\ MainNode_str tree
       = pre ++ nl ++ sp 16 ++ root_line n t ++ nl ++ post.
Proof.
  intros Hn Ht Hclean Hscript Hsubs.
  exists (built set_iter files t n e s).
  destruct (built_resources_text set_iter files t n e s Hclean Hscript Hsubs)
    as (before & z & Hres).
  destruct (root_heading_zero_indent before "["%char z n t eq_refl eq_refl Hn Ht)
    as (p1 & p2 & Hhead).
  destruct (built_node_blocks_end set_iter files t n e s) as (blocks & body & Hb).
  assert (Hlay := MainNode_str_layout (built set_iter files t n e s) _
                    eq_refl eq_refl).
  cbn [name node_type script built] in Hlay.
  fold (built set_iter files t n e s) in Hlay.
  rewrite Hres, Hhead, Hb in Hlay.
  destruct (strip_between p1 "["%char
              (p2 ++ nl ++ sp 16 ++ root_line n t ++ nl ++ nl
               ++ script_text s ++ blocks ++ body) eq_refl) as [pre Hpre].
  match type of Hlay with
  | _ = ?h ++ nl ++ nl ++ strip ?x =>
      replace x with (p1 ++ String "["%char
                        (p2 ++ nl ++ sp 16 ++ root_line n t ++ nl ++ nl
                         ++ script_text s ++ blocks ++ body)
                      ++ "blend_times = [  ]" ++ nl) in Hlay;
      [rewrite Hpre in Hlay;
       exists (h ++ nl ++ nl ++ pre ++ String "["%char p2),
              (nl ++ script_text s ++ blocks ++ body ++ "blend_times = [  ]");
       generalize dependent h|]
  end.
  - intros h Hlay'. split; [apply build_tree_valid|]. rewrite Hlay'.
    generalize (root_line n t) (script_text s). intros rl st.
    change (String "["%char (p2 ++ nl ++ sp 16 ++ rl ++ nl ++ nl ++ st ++ blocks ++ body))
      with (String "["%char p2 ++ nl ++ sp 16 ++ rl ++ nl ++ nl ++ st ++ blocks ++ body).
    rewrite !append_assoc. reflexivity.
  - generalize (root_line n t) (script_text s). intros rl st.
    change (String "["%char (p2 ++ nl ++ sp 16 ++ rl ++ nl ++ nl ++ st ++ blocks ++ body))
      with (String "["%char p2 ++ nl ++ sp 16 ++ rl ++ nl ++ nl ++ st ++ blocks ++ body).
    rewrite !append_assoc. reflexivity.
Qed.

Lemma X17_root_heading_keeps_its_indentation_witness :
  forallb clean_file hero_files = true
  /\ 0 < list_sum (map file_sub_count hero_files)
  /\ exists tree pre post,
       build_tree insertion_order hero_args = Ok tree
       /\ MainNode_str tree
          = pre ++ nl ++ sp 16 ++ root_line "player" "KinematicBody2D" ++ nl ++ post.
Proof.
  split; [reflexivity|]. split; [vm_compute; lia|].
  apply (X17_root_heading_keeps_its_indentation insertion_order hero_files
           "KinematicBody2D" "player" None None); try reflexivity.
  vm_compute. lia.
Defined.

(** ** When the ids exist *)

Lemma file_subs_no_id f sr : In sr (file_subs f) -> sr_i sr = None.
Proof.
  unfold file_subs. intros Hin. apply in_app_or in Hin.
  destruct Hin as [Hin|Hin]; apply in_map_iff in Hin;
    destruct Hin as (x & <- & _); reflexivity.
Qed.

(** X18.  In the document built from valid files no resource holds an id
    before the document is converted to text; after the conversion every
    external resource and every sub-resource holds one, between 1 and the
    number of resources of its kind. *)
Theorem X18_ids_exist_after_serialization set_iter files t n e s :
  exists tree,
    build_tree set_iter (mkArgs (valid_inputs files) t n e s) = Ok tree
    /\ (forall x, In x (ext_resources tree) -> ext_i x = None)
    /\ (forall sr, In sr (sub_resources tree) -> sr_i sr = None)
    /\ (forall x, In x (ext_resources (serialized tree)) ->
                  exists i, ext_i x = Some i
                            /\ 1 <= i <= List.length (ext_resources tree))
    /\ (forall sr, In sr (sub_resources (serialized tree)) ->
                   exists i, sr_i sr = Some i
                             /\ 1 <= i <= List.length (sub_resources tree)).
Proof.
  exists (built set_iter files t n e s). split; [apply build_tree_valid|].
  split; [|split; [|split]].
  - cbn [built ext_resources]. intros x Hx. apply in_app_or in Hx.
    destruct Hx as [Hx|Hx].
    + destruct s; simpl in Hx; [destruct Hx as [<-|[]]; reflexivity|destruct Hx].
    + apply in_map_iff in Hx. destruct Hx as (f & <- & _). reflexivity.
  - cbn [built sub_resources]. unfold sync_skin_tracks. intros sr Hin.
    apply in_map_iff in Hin. destruct Hin as (sr0 & <- & Hin).
    apply in_flat_map in Hin. destruct Hin as (f & _ & Hin).
    pose proof (file_subs_no_id f sr0 Hin) as H0.
    destruct (isinstance_SubResourceSpineSkin sr0); [|exact H0].
    rewrite add_other_tracks_any. exact H0.
  - intros x Hx. rewrite serialized_ext_resources in Hx.
    apply In_nth_error in Hx. destruct Hx as [m Hm].
    rewrite with_ext_ids_nth in Hm.
    destruct (nth_error (ext_resources (built set_iter files t n e s)) m)
      as [y|] eqn:Ey; [|discriminate].
    simpl in Hm. inversion Hm; subst. exists (m + 1). split; [reflexivity|].
    assert (m < List.length (ext_resources (built set_iter files t n e s)))
      by (apply nth_error_Some; congruence).
    lia.
  - intros sr Hin.
    apply (Permutation_in _ (serialized_sub_resources_perm _)) in Hin.
    apply in_with_sub_ids in Hin. destruct Hin as (i & a & sr0 & Hi & ->).
    exists (i + 1). split; [reflexivity|].
    assert (i < List.length (sorted_sub_resources
                               (sub_resources (built set_iter files t n e s))))
      by (apply nth_error_Some; congruence).
    rewrite sorted_sub_resources_length in H. lia.
Qed.

(** ** The characters of a node name *)

Lemma has_char_app c : forall a b,
  has_char c (a ++ b) = has_char c a || has_char c b.
Proof.
  induction a as [|x a IH]; intros b; simpl; [reflexivity|].
  rewrite IH, orb_assoc. reflexivity.
Qed.

Lemma has_char_replace_from c old new :
  has_char c new = false ->
  forall s k, has_char c s = false -> has_char c (replace_from old new k s) = false.
Proof.
  intros Hnew. induction s as [|x s IH]; intros k H; [reflexivity|].
  simpl in H. apply orb_false_iff in H. destruct H as [Hx Hs].
  cbn [replace_from]. destruct k as [|k]; [|apply IH; exact Hs].
  destruct (String.prefix old (String x s)).
  - rewrite has_char_app, Hnew. apply IH. exact Hs.
  - cbn [has_char]. rewrite Hx. apply IH. exact Hs.
Qed.

Lemma has_slash_has_char : forall p, has_slash p = has_char "/"%char p.
Proof. induction p as [|c p IH]; simpl; [reflexivity|]. rewrite IH. reflexivity. Qed.

Lemma basename_no_slash : forall p, has_char "/"%char (basename p) = false.
Proof.
  induction p as [|c p IH]; [reflexivity|].
  cbn [basename]. destruct (has_slash (String c p)) eqn:E; [exact IH|].
  rewrite <- has_slash_has_char. exact E.
Qed.

Lemma dots_to_underscores_no_dot : forall s,
  has_char "."%char (dots_to_underscores s) = false.
Proof.
  unfold dots_to_underscores. induction s as [|c s IH]; [reflexivity|].
  cbn [map_chars has_char]. rewrite IH.
  destruct (Ascii.eqb c "."%char) eqn:E; [reflexivity|].
  rewrite E. reflexivity.
Qed.

Lemma dots_to_underscores_no_slash : forall s,
  has_char "/"%char s = false -> has_char "/"%char (dots_to_underscores s) = false.
Proof.
  unfold dots_to_underscores. induction s as [|c s IH]; intros H; [reflexivity|].
  simpl in H. apply orb_false_iff in H. destruct H as [Hc Hs].
  cbn [map_chars has_char]. rewrite (IH Hs).
  destruct (Ascii.eqb c "."%char); [reflexivity|]. rewrite Hc. reflexivity.
Qed.

(** X19.  The name given to the node of an input file starts with [spine_]
    and holds neither a dot nor a slash, whatever the path of the file. *)
Theorem X19_node_name_has_no_dot_or_slash json_file :
  String.prefix "spine_" (spine_node_name json_file) = true
  /\ has_char "."%char (spine_node_name json_file) = false
  /\ has_char "/"%char (spine_node_name json_file) = false.
Proof.
  unfold spine_node_name. rewrite replace_dots. split; [|split].
  - apply prefix_app.
  - rewrite has_char_app, dots_to_underscores_no_dot. reflexivity.
  - rewrite has_char_app. cbn [orb]. simpl has_char at 1. cbn [orb].
    apply dots_to_underscores_no_slash.
    apply has_char_replace_from; [reflexivity|]. apply basename_no_slash.
Qed.
